(** * FA2 archive packer (FA2_pack.py): model and verification

    The packer lists the regular files of a directory, sorts their names,
    reads each file, lays the contents out in a data region padded to
    16-byte boundaries, and writes a 16-byte header, the data region and an
    index table of 32-byte records to the output file.

    Python values are modelled as follows.
    - [bytes] / [bytearray]: [list byte];
    - [int]: [Z] (unbounded, as in Python);
    - [str]: the list of its Unicode code points, each a [Z];
    - an exception: the [Raise] case of [result];
    - the file system: the record [world]. *)

From Stdlib Require Import ZArith Lia List.
From Stdlib Require String Ascii.
From coqutil Require Import Byte Word.LittleEndianList.
From stdpp Require Import base tactics option list sorting.
Import ListNotations.
Import Stdlib.Strings.String.StringSyntax.
Local Open Scope Z_scope.

Abbreviation bytes := (list byte).
Abbreviation pystr := (list Z).

#[global] Instance byte_eq_dec : EqDecision byte := Stdlib.Strings.Byte.byte_eq_dec.

(** ** Exceptions *)

Inductive exn : Set :=
| FileNotFoundError   (* os.listdir or open on a path that does not exist *)
| OSError             (* any other OSError of open/read/write: PermissionError, ... *)
| UnicodeEncodeError  (* str.encode on a lone surrogate; print on a name stdout cannot encode *)
| StructError.        (* struct.pack("<I", v) with v outside 0..2^32-1 *)

(** [isinstance(e, OSError)]: in Python [FileNotFoundError] is a subclass of
    [OSError]. The constructor [OSError] stands for the instances of
    [OSError] that are not [FileNotFoundError]. *)
Definition is_OSError (e : exn) : bool :=
  match e with
  | FileNotFoundError | OSError => true
  | UnicodeEncodeError | StructError => false
  end.

Inductive result (A : Type) : Type :=
| Ok (a : A)
| Raise (e : exn).
Arguments Ok {A} a.
Arguments Raise {A} e.

#[global] Instance result_ret : MRet result := @Ok.
#[global] Instance result_bind : MBind result := fun A B f m =>
  match m with
  | Ok a => f a
  | Raise e => Raise e
  end.

Definition succeeds {A} (r : result A) : Prop :=
  match r with Ok _ => True | Raise _ => False end.

(** ** Python built-ins used by the packer *)

Module Py.

(** [struct.pack("<I", v)]: four bytes, least significant first;
    [struct.error] when [v] is not an unsigned 32-bit value. *)
Definition pack_u32 (v : Z) : result bytes :=
  if (0 <=? v) && (v <? 2 ^ 32) then Ok (le_split 4 v) else Raise StructError.

(** UTF-8 encoding of one code point (RFC 3629). Surrogates are not
    encodable: [str.encode("utf-8")] raises on them. A [Z] outside
    [0 .. 0x10FFFF] is not a code point of any [str]; it is rejected
    the same way. *)
Definition utf8_char (c : Z) : result bytes :=
  if c <? 0 then Raise UnicodeEncodeError
  else if c <? 0x80 then Ok [byte.of_Z c]
  else if c <? 0x800 then
    Ok [byte.of_Z (0xC0 + c / 64); byte.of_Z (0x80 + c mod 64)]
  else if (0xD800 <=? c) && (c <=? 0xDFFF) then Raise UnicodeEncodeError
  else if c <? 0x10000 then
    Ok [byte.of_Z (0xE0 + c / 4096); byte.of_Z (0x80 + (c / 64) mod 64);
        byte.of_Z (0x80 + c mod 64)]
  else if c <? 0x110000 then
    Ok [byte.of_Z (0xF0 + c / 262144); byte.of_Z (0x80 + (c / 4096) mod 64);
        byte.of_Z (0x80 + (c / 64) mod 64); byte.of_Z (0x80 + c mod 64)]
  else Raise UnicodeEncodeError.

(** [s.encode("utf-8")] *)
Fixpoint encode_utf8 (s : pystr) : result bytes :=
  match s with
  | [] => Ok []
  | c :: s' =>
      b ← utf8_char c;
      bs ← encode_utf8 s';
      Ok (b ++ bs)
  end.

(** [b.ljust(width, fill)] *)
Definition ljust (width : nat) (fill : byte) (b : bytes) : bytes :=
  b ++ repeat fill (width - length b)%nat.

(** A [str] literal made of ASCII characters. *)
Definition str (s : String.string) : pystr :=
  map (fun a => Z.of_N (Ascii.N_of_ascii a)) (String.list_ascii_of_string s).
Arguments str s%_string_scope.

(** [len(b)] *)
Definition len {A} (l : list A) : Z := Z.of_nat (length l).

(** Comparison of two [str] values, as used by [list.sort]:
    lexicographic on code points. *)
Fixpoint str_leb (s t : pystr) : bool :=
  match s, t with
  | [], _ => true
  | _ :: _, [] => false
  | a :: s', b :: t' => (a <? b) || ((a =? b) && str_leb s' t')
  end.

Definition str_le (s t : pystr) : Prop := str_leb s t = true.

#[global] Instance str_le_dec : RelDecision str_le.
Proof. intros s t. unfold str_le. apply _. Defined.

End Py.

(** ** The packer *)

(** Align size to a 16-byte boundary. *)
Definition align16 (size : Z) : Z := Z.land (size + 0xF) (Z.lnot 0xF).

(** One element of [file_entries]: the tuple
    [(fname, orig_size, stored_size, data_offset)]. *)
Record file_entry : Type := FileEntry {
  e_fname : pystr;
  e_orig_size : Z;
  e_stored_size : Z;
  e_offset : Z
}.

(** The variables the first loop of [pack_fa2] updates. *)
Record pack_state : Type := PackState {
  file_entries : list file_entry;
  file_data : bytes;
  data_offset : Z
}.

(** Data area always starts at offset 0x10 (16). *)
Definition init_state : pack_state :=
  {| file_entries := []; file_data := []; data_offset := 0x10 |}.

(** Body of the first loop, after [data = f.read()]. *)
Definition store_file (st : pack_state) (fname : pystr) (data : bytes) : pack_state :=
  let orig_size := Py.len data in
  let stored_size := orig_size in
  let pad_len := align16 orig_size - orig_size in
  {| file_entries :=
       file_entries st ++ [FileEntry fname orig_size stored_size (data_offset st)];
     file_data :=
       (file_data st ++ data)
         ++ (if pad_len =? 0 then [] else repeat Byte.x00 (Z.to_nat pad_len));
     data_offset := data_offset st + align16 orig_size |}.

(** The first loop run over files whose contents are already known. *)
Definition store_all (entries : list (pystr * bytes)) (st : pack_state) : pack_state :=
  fold_left (fun st e => store_file st e.1 e.2) entries st.

(** Header (16 bytes): signature, flags, index offset, file count. *)
Definition build_header (index_offset file_count : Z) : result bytes :=
  h1 ← Py.pack_u32 0x00324146;
  h2 ← Py.pack_u32 0;
  h3 ← Py.pack_u32 index_offset;
  h4 ← Py.pack_u32 file_count;
  Ok (h1 ++ h2 ++ h3 ++ h4).

(** The 15-byte name field: at most 14 bytes of the encoded name, a null
    byte, padded with null bytes to 15. *)
Definition name_field (name_bytes : bytes) : bytes :=
  let name_bytes :=
    if 15 <=? Py.len name_bytes
    then take 14 name_bytes ++ [Byte.x00]
    else name_bytes ++ [Byte.x00] in
  Py.ljust 15 Byte.x00 name_bytes.

(** Body of the second loop: the 32 bytes appended to [index_table]. *)
Definition index_record (e : file_entry) : result bytes :=
  name_bytes ← Py.encode_utf8 (e_fname e);
  o ← Py.pack_u32 (e_orig_size e);
  s ← Py.pack_u32 (e_stored_size e);
  Ok (name_field name_bytes ++ repeat Byte.x00 9 ++ o ++ s).

Fixpoint index_loop (es : list file_entry) (index_table : bytes) : result bytes :=
  match es with
  | [] => Ok index_table
  | e :: es' =>
      r ← index_record e;
      index_loop es' (index_table ++ r)
  end.

(** Everything [pack_fa2] computes between the first loop and the opening
    of the output file: the three byte strings it then writes. *)
Definition assemble (st : pack_state) : result (bytes * bytes * bytes) :=
  let file_count := Py.len (file_entries st) in
  let index_offset := data_offset st in
  header ← build_header index_offset file_count;
  index_table ← index_loop (file_entries st) [];
  Ok (header, file_data st, index_table).

(** The archive image for a sequence of (name, content) entries, in the
    order given. *)
Definition build (entries : list (pystr * bytes)) : result bytes :=
  '(header, data, index_table) ← assemble (store_all entries init_state);
  Ok (header ++ data ++ index_table).

(** ** The file system and the whole program *)

(** What a name in the source directory refers to. *)
Inductive node : Type :=
| Regular (data : bytes)   (* a regular file that can be read *)
| Unreadable               (* a regular file whose open or read fails *)
| NotAFile.                (* a subdirectory, socket, ...: os.path.isfile is False *)

(** What happens from the opening of the output file on.
    - [OpenFails]: [open(output_file, "wb")] raises an [OSError] other than
      [FileNotFoundError] (permission denied, the path is a directory);
    - [OpenNotFound]: the parent directory of the output path is missing and
      [open] raises [FileNotFoundError];
    - [DiskFull room]: the file is created (and truncated), and the device
      accepts [room] bytes before a write or the final flush fails;
    - [PrintFails]: the file is written and closed, and the [print] of the
      success message, which contains the output path, raises
      [UnicodeEncodeError] because stdout cannot encode it. *)
Inductive out_fault : Type :=
| NoFault
| OpenFails
| OpenNotFound
| DiskFull (room : nat)
| PrintFails.

Record world : Type := World {
  (** The source directory in the order [os.listdir] returns it, or [None]
      when nothing exists at its path. *)
  src_dir : option (list (pystr * node));
  (** Content of the file at the output path, [None] when there is none. *)
  out_file : option bytes;
  out_dev : out_fault
}.

Definition set_out_file (w : world) (content : bytes) : world :=
  {| src_dir := src_dir w; out_file := Some content; out_dev := out_dev w |}.

Fixpoint lookup_node (dir : list (pystr * node)) (fname : pystr) : option node :=
  match dir with
  | [] => None
  | (f, x) :: dir' => if decide (f = fname) then Some x else lookup_node dir' fname
  end.

(** [os.listdir(directory)] *)
Definition os_listdir (w : world) : result (list pystr) :=
  match src_dir w with
  | Some dir => Ok dir.*1
  | None => Raise FileNotFoundError
  end.

(** [os.path.isdir(directory)] *)
Definition os_path_isdir (w : world) : bool :=
  match src_dir w with Some _ => true | None => false end.

(** [os.path.isfile(os.path.join(directory, f))] *)
Definition os_path_isfile (w : world) (f : pystr) : bool :=
  match src_dir w with
  | Some dir =>
      match lookup_node dir f with
      | Some (Regular _) | Some Unreadable => true
      | _ => false
      end
  | None => false
  end.

(** [with open(full_path, "rb") as f: data = f.read()] *)
Definition read_file (w : world) (fname : pystr) : result bytes :=
  match src_dir w with
  | Some dir =>
      match lookup_node dir fname with
      | Some (Regular data) => Ok data
      | _ => Raise OSError
      end
  | None => Raise OSError
  end.

(** The first loop of [pack_fa2]. *)
Fixpoint read_loop (w : world) (files : list pystr) (st : pack_state) : result pack_state :=
  match files with
  | [] => Ok st
  | fname :: files' =>
      data ← read_file w fname;
      read_loop w files' (store_file st fname data)
  end.

(** [with open(output_file, "wb") as out:] followed by the three writes.
    The file holds what reached the device. *)
Definition write_out (w : world) (header data index_table : bytes) : result unit * world :=
  let image := header ++ data ++ index_table in
  match out_dev w with
  | OpenFails => (Raise OSError, w)
  | OpenNotFound => (Raise FileNotFoundError, w)
  | NoFault | PrintFails => (Ok (), set_out_file w image)
  | DiskFull room =>
      if (room <? length image)%nat
      then (Raise OSError, set_out_file w (take room image))
      else (Ok (), set_out_file w image)
  end.

(** Everything [pack_fa2] does before it opens the output file. *)
Definition gather (w : world) : result (Z * (bytes * bytes * bytes)) :=
  names ← os_listdir w;
  let files := merge_sort Py.str_le (filter (fun f => os_path_isfile w f = true) names) in
  st ← read_loop w files init_state;
  parts ← assemble st;
  Ok (Py.len (file_entries st), parts).

(** [print(f"FA2 archive '{output_file}' created successfully with
    {file_count} file(s).")], after the output file is closed. *)
Definition print_created (w : world) : result unit :=
  match out_dev w with
  | PrintFails => Raise UnicodeEncodeError
  | _ => Ok ()
  end.

(** [pack_fa2(directory, output_file)]: the result is the file count of the
    success message, or the exception raised; the world is the file system
    afterwards. *)
Definition pack_fa2 (w : world) : result Z * world :=
  match gather w with
  | Raise e => (Raise e, w)
  | Ok (file_count, (header, data, index_table)) =>
      match write_out w header data index_table with
      | (Ok _, w') =>
          match print_created w' with
          | Ok _ => (Ok file_count, w')
          | Raise e => (Raise e, w')
          end
      | (Raise e, w') => (Raise e, w')
      end
  end.

(** The run reaches the writes and the device cuts them short. *)
Definition write_cut_short (w : world) : Prop :=
  ∃ room n header data index_table,
    out_dev w = DiskFull room
    ∧ gather w = Ok (n, (header, data, index_table))
    ∧ (room < length (header ++ data ++ index_table))%nat.

(** How a run of the script ends. *)
Inductive outcome : Type :=
| Exit (code : Z)          (* sys.exit(code) after a message *)
| Created (file_count : Z) (* the success message *)
| Uncaught (e : exn).      (* traceback *)

(** [main()], with [argc = len(sys.argv)]. Its two messages are fixed ASCII
    text; only the success message of [pack_fa2] contains a path. *)
Definition main (argc : Z) (w : world) : outcome * world :=
  if argc <? 3 then (Exit 1, w)
  else if negb (os_path_isdir w) then (Exit 1, w)
  else
    match pack_fa2 w with
    | (Ok n, w') => (Created n, w')
    | (Raise e, w') => (Uncaught e, w')
    end.

(** ** The archive reader *)

Module Reader.

Definition is_cont (v : Z) : bool := (0x80 <=? v) && (v <? 0xC0).

(** Modelled from the spec: the reader is absent from the repository; the
    names it returns are strings, so the stored name bytes are decoded.
    Strict UTF-8 decoding (RFC 3629): a stray or missing continuation
    byte, an overlong form, a surrogate or a value above 0x10FFFF is
    rejected. *)
Fixpoint decode_utf8 (bs : bytes) : option pystr :=
  match bs with
  | [] => Some []
  | b0 :: t0 =>
      let v0 := byte.unsigned b0 in
      if v0 <? 0x80 then s ← decode_utf8 t0; Some (v0 :: s)
      else if v0 <? 0xC0 then None
      else if v0 <? 0xE0 then
        match t0 with
        | b1 :: t1 =>
            let v1 := byte.unsigned b1 in
            let c := (v0 - 0xC0) * 64 + (v1 - 0x80) in
            if is_cont v1 && (0x80 <=? c)
            then s ← decode_utf8 t1; Some (c :: s)
            else None
        | _ => None
        end
      else if v0 <? 0xF0 then
        match t0 with
        | b1 :: b2 :: t2 =>
            let v1 := byte.unsigned b1 in
            let v2 := byte.unsigned b2 in
            let c := (v0 - 0xE0) * 4096 + (v1 - 0x80) * 64 + (v2 - 0x80) in
            if is_cont v1 && is_cont v2 && (0x800 <=? c)
               && negb ((0xD800 <=? c) && (c <=? 0xDFFF))
            then s ← decode_utf8 t2; Some (c :: s)
            else None
        | _ => None
        end
      else if v0 <? 0xF8 then
        match t0 with
        | b1 :: b2 :: b3 :: t3 =>
            let v1 := byte.unsigned b1 in
            let v2 := byte.unsigned b2 in
            let v3 := byte.unsigned b3 in
            let c := (v0 - 0xF0) * 262144 + (v1 - 0x80) * 4096
                     + (v2 - 0x80) * 64 + (v3 - 0x80) in
            if is_cont v1 && is_cont v2 && is_cont v3
               && (0x10000 <=? c) && (c <? 0x110000)
            then s ← decode_utf8 t3; Some (c :: s)
            else None
        | _ => None
        end
      else None
  end.


(** Modelled from the spec: "name[15] (null-terminated, zero-padded)":
    the bytes before the first null byte. *)
Fixpoint c_string (field : bytes) : bytes :=
  match field with
  | [] => []
  | b :: field' => if decide (b = Byte.x00) then [] else b :: c_string field'
  end.



End Reader.

(** ** Quantities the format description names *)

(** [sum(align16(size) for all entries)] *)
Definition total_padded (entries : list (pystr * bytes)) : Z :=
  foldr (fun e acc => align16 (Py.len e.2) + acc) 0 entries.

(** An entry's content followed by [align16(originalSize) - originalSize]
    zero-padding bytes. *)
Definition padded (data : bytes) : bytes :=
  data ++ repeat Byte.x00 (Z.to_nat (align16 (Py.len data) - Py.len data)).

(** The data region: each entry's padded content, in order. *)
Definition data_region (entries : list (pystr * bytes)) : bytes :=
  concat (map (fun e => padded e.2) entries).

(** The entries with their sizes and data offsets, the first at [offset]. *)
Fixpoint layout (offset : Z) (entries : list (pystr * bytes)) : list file_entry :=
  match entries with
  | [] => []
  | e :: entries' =>
      FileEntry e.1 (Py.len e.2) (Py.len e.2) offset
        :: layout (offset + align16 (Py.len e.2)) entries'
  end.

(** An unsigned 32-bit little-endian field of a byte string. *)
Definition field_u32 (off : nat) (b : bytes) : Z := le_combine (take 4 (drop off b)).

(** The sixteen header bytes for a given index offset and entry count. *)
Definition header_bytes (index_offset file_count : Z) : bytes :=
  le_split 4 0x00324146 ++ le_split 4 0 ++ le_split 4 index_offset ++ le_split 4 file_count.


(** [True] for what [os.path.isfile] accepts. *)
Definition is_file (x : node) : bool :=
  match x with
  | NotAFile => false
  | _ => true
  end.

(** The world with everything that is not a regular file removed from the
    source directory. *)
Definition files_only (w : world) : world :=
  {| src_dir := filter (fun p => is_file p.2 = true) <$> src_dir w;
     out_file := out_file w;
     out_dev := out_dev w |}.

(** ** Sample inputs *)

Module Sample.

(** The two files of the format description's worked example. *)
Definition entries : list (pystr * bytes) :=
  [(Py.str "a.txt", [byte.of_Z 104; byte.of_Z 105]);
   (Py.str "b.dat", repeat Byte.x00 20)].

Definition image : bytes :=
  Eval vm_compute in match build entries with Ok a => a | Raise _ => [] end.

Definition long_name : pystr := Py.str "this_name_is_definitely_too_long.txt".

Definition long_entry : file_entry := FileEntry long_name 2 2 16.

Definition long_name_bytes : bytes :=
  Eval vm_compute in match Py.encode_utf8 long_name with Ok b => b | Raise _ => [] end.

Definition long_record : bytes :=
  Eval vm_compute in match index_record long_entry with Ok r => r | Raise _ => [] end.

(** Fifteen bytes each, equal on the first fourteen. *)
Definition long_x : pystr := Py.str "aaaaaaaaaaaaaaX".
Definition long_y : pystr := Py.str "aaaaaaaaaaaaaaY".

(** U+00E9 encodes to the bytes C3 A9, at positions 13 and 14. *)
Definition straddling_name : pystr := Py.str "aaaaaaaaaaaaa" ++ [0xE9; 98].

Definition straddling_bytes : bytes :=
  Eval vm_compute in
    match Py.encode_utf8 straddling_name with Ok b => b | Raise _ => [] end.



(** Three entries with no content. *)
Definition hollow : list (pystr * bytes) :=
  [(Py.str "a", []); (Py.str "b", []); (Py.str "c", [])].

(** A directory listed in an arbitrary order, an output file with old
    content, and a device that accepts twenty bytes. *)
Definition dir : list (pystr * node) :=
  [(Py.str "b.dat", Regular (repeat Byte.x00 20));
   (Py.str "sub", NotAFile);
   (Py.str "a.txt", Regular [byte.of_Z 104; byte.of_Z 105])].

Definition full_disk : world :=
  {| src_dir := Some dir; out_file := Some [Byte.x01]; out_dev := DiskFull 20 |}.

Definition healthy : world :=
  {| src_dir := Some dir; out_file := Some [Byte.x01]; out_dev := NoFault |}.

Definition healthy_relisted : world :=
  {| src_dir := Some (rev dir); out_file := None; out_dev := NoFault |}.

Definition no_directory : world :=
  {| src_dir := None; out_file := Some [Byte.x01]; out_dev := NoFault |}.

(** Two files whose names are equal on their first fourteen bytes. *)
Definition colliders_dir : list (pystr * node) :=
  [(long_y, Regular [Byte.x02]); (long_x, Regular [Byte.x01])].

Definition colliders : world :=
  {| src_dir := Some colliders_dir; out_file := None; out_dev := NoFault |}.

Definition collider_entries : list (pystr * bytes) :=
  [(long_x, [Byte.x01]); (long_y, [Byte.x02])].

Definition colliders_image : bytes :=
  Eval vm_compute in match build collider_entries with Ok a => a | Raise _ => [] end.

(** The worked example with a stdout that cannot encode the output path,
    and with an output path whose parent directory is missing. *)
Definition mute : world :=
  {| src_dir := Some dir; out_file := Some [Byte.x01]; out_dev := PrintFails |}.

Definition no_parent : world :=
  {| src_dir := Some dir; out_file := None; out_dev := OpenNotFound |}.

(** A directory with a regular file that cannot be read. *)
Definition locked_dir : list (pystr * node) :=
  [(Py.str "a.txt", Regular [Byte.x01]); (Py.str "k.bin", Unreadable)].

Definition locked : world :=
  {| src_dir := Some locked_dir; out_file := Some [Byte.x01]; out_dev := NoFault |}.

End Sample.

(** * Properties *)

(** ** Alignment *)

Lemma align16_div (n : Z) : align16 n = 16 * ((n + 15) / 16).
Proof.
  unfold align16.
  change 0xF with (Z.ones 4).
  rewrite <- Z.ldiff_land, Z.ldiff_ones_r by lia.
  rewrite Z.shiftr_div_pow2, Z.shiftl_mul_pow2 by lia.
  change (2 ^ 4) with 16. lia.
Qed.

Lemma align16_mod (n : Z) : align16 n mod 16 = 0.
Proof. rewrite align16_div, Z.mul_comm. apply Z.mod_mul. lia. Qed.

Lemma align16_bounds (n : Z) : n <= align16 n < n + 16.
Proof. rewrite align16_div. pose proof (Z.div_mod (n + 15) 16).
  pose proof (Z.mod_pos_bound (n + 15) 16). lia. Qed.

Lemma align16_multiple (n : Z) : n mod 16 = 0 -> align16 n = n.
Proof.
  intros H. rewrite align16_div.
  pose proof (Z.div_mod n 16). pose proof (Z.div_mod (n + 15) 16).
  pose proof (Z.mod_pos_bound (n + 15) 16). lia.
Qed.

Lemma align16_nonneg (n : Z) : 0 <= n -> 0 <= align16 n.
Proof. pose proof (align16_bounds n). lia. Qed.

(** ** Byte strings and 32-bit fields *)

Lemma len_nonneg {A} (l : list A) : 0 <= Py.len l.
Proof. unfold Py.len. lia. Qed.

Lemma len_app {A} (l k : list A) : Py.len (l ++ k) = Py.len l + Py.len k.
Proof. unfold Py.len. rewrite length_app. lia. Qed.

Lemma pack_u32_Ok (v : Z) (b : bytes) :
  Py.pack_u32 v = Ok b ↔ 0 <= v < 2 ^ 32 ∧ b = le_split 4 v.
Proof.
  unfold Py.pack_u32.
  destruct (0 <=? v) eqn:H0; destruct (v <? 2 ^ 32) eqn:H1; simpl;
    split; intros H; try discriminate; try (injection H as <-); try lia;
    try (destruct H as [_ ->]; reflexivity); split; try reflexivity; lia.
Qed.

Lemma pack_u32_fits (v : Z) : 0 <= v < 2 ^ 32 -> Py.pack_u32 v = Ok (le_split 4 v).
Proof. intros H. apply pack_u32_Ok. auto. Qed.

Lemma le_combine_split_u32 (v : Z) : 0 <= v < 2 ^ 32 -> le_combine (le_split 4 v) = v.
Proof. intros H. rewrite le_combine_split. apply Z.mod_small. exact H. Qed.

Lemma field_u32_here (v : Z) (pre post : bytes) (off : nat) :
  0 <= v < 2 ^ 32 -> length pre = off ->
  field_u32 off (pre ++ le_split 4 v ++ post) = v.
Proof.
  intros Hv <-. unfold field_u32.
  rewrite drop_app_length.
  rewrite take_app_length' by (symmetry; apply length_le_split).
  apply le_combine_split_u32, Hv.
Qed.

Lemma length_padded (data : bytes) : Py.len (padded data) = align16 (Py.len data).
Proof.
  unfold padded. rewrite len_app. unfold Py.len at 2. rewrite repeat_length.
  pose proof (align16_bounds (Py.len data)). lia.
Qed.

Lemma length_data_region entries : Py.len (data_region entries) = total_padded entries.
Proof.
  induction entries as [|e entries IH]; [reflexivity|].
  unfold data_region in *. simpl. rewrite len_app, length_padded, IH. reflexivity.
Qed.

Lemma total_padded_nonneg entries : 0 <= total_padded entries.
Proof.
  induction entries as [|e entries IH]; simpl; [lia|].
  pose proof (align16_nonneg (Py.len e.2) (len_nonneg _)). lia.
Qed.

(** ** The [result] monad *)

Lemma bind_Ok {A B} (m : result A) (f : A -> result B) (b : B) :
  m ≫= f = Ok b ↔ ∃ a, m = Ok a ∧ f a = Ok b.
Proof.
  destruct m as [a|e]; simpl; split.
  - intros H. exists a. auto.
  - intros (a' & [= <-] & H). exact H.
  - discriminate.
  - intros (a' & H & _). discriminate.
Qed.

Lemma succeeds_Ok {A} (r : result A) : succeeds r ↔ ∃ a, r = Ok a.
Proof. destruct r; simpl; split; eauto; try done; intros [? ?]; discriminate. Qed.

(** Splits a hypothesis [x ← m; k = Ok b] into [m = Ok x] and [k = Ok b]. *)
Ltac inv_bind H :=
  repeat match type of H with
  | _ ≫= _ = Ok _ =>
      let x := fresh "x" in let Hx := fresh "H" x in
      apply bind_Ok in H; destruct H as (x & Hx & H)
  end.

(** ** The first loop: layout of the data region *)

Lemma store_file_eq st fname data :
  store_file st fname data =
  {| file_entries :=
       file_entries st ++ [FileEntry fname (Py.len data) (Py.len data) (data_offset st)];
     file_data := file_data st ++ padded data;
     data_offset := data_offset st + align16 (Py.len data) |}.
Proof.
  unfold store_file, padded. f_equal.
  rewrite <- app_assoc. f_equal. f_equal.
  destruct (align16 (Py.len data) - Py.len data =? 0) eqn:E; [|reflexivity].
  apply Z.eqb_eq in E. rewrite E. reflexivity.
Qed.

Lemma store_all_eq entries : ∀ st,
  store_all entries st =
  {| file_entries := file_entries st ++ layout (data_offset st) entries;
     file_data := file_data st ++ data_region entries;
     data_offset := data_offset st + total_padded entries |}.
Proof.
  induction entries as [|e entries IH]; intros st.
  - destruct st. simpl. rewrite !app_nil_r, Z.add_0_r. reflexivity.
  - change (store_all (e :: entries) st) with (store_all entries (store_file st e.1 e.2)).
    rewrite IH, store_file_eq. simpl. unfold data_region. simpl.
    rewrite <- !app_assoc. simpl. f_equal. lia.
Qed.

Lemma length_layout entries : ∀ off, length (layout off entries) = length entries.
Proof. induction entries; intros; simpl; auto. Qed.

(** ** The second loop: index records *)

Lemma length_name_field (name_bytes : bytes) : length (name_field name_bytes) = 15%nat.
Proof.
  unfold name_field, Py.ljust, Py.len.
  destruct (15 <=? Z.of_nat (length name_bytes)) eqn:E.
  - apply Z.leb_le in E.
    rewrite !length_app, repeat_length, length_take. cbn [length]. lia.
  - apply Z.leb_gt in E.
    rewrite !length_app, repeat_length. cbn [length]. lia.
Qed.

Lemma name_field_long (name_bytes : bytes) :
  (15 <= length name_bytes)%nat -> name_field name_bytes = take 14 name_bytes ++ [Byte.x00].
Proof.
  intros H. unfold name_field, Py.ljust, Py.len.
  destruct (15 <=? Z.of_nat (length name_bytes)) eqn:E; [|apply Z.leb_gt in E; lia].
  rewrite length_app, length_take. cbn [length].
  replace (15 - (14 `min` length name_bytes + 1))%nat with 0%nat by lia.
  apply app_nil_r.
Qed.

Lemma name_field_short (name_bytes : bytes) :
  (length name_bytes < 15)%nat ->
  name_field name_bytes
  = name_bytes ++ [Byte.x00] ++ repeat Byte.x00 (14 - length name_bytes).
Proof.
  intros H. unfold name_field, Py.ljust, Py.len.
  destruct (15 <=? Z.of_nat (length name_bytes)) eqn:E; [apply Z.leb_le in E; lia|].
  rewrite length_app. cbn [length]. rewrite <- app_assoc. cbn [app].
  do 3 f_equal. lia.
Qed.

Lemma index_record_Ok (e : file_entry) (r : bytes) :
  index_record e = Ok r ↔
  ∃ name_bytes, Py.encode_utf8 (e_fname e) = Ok name_bytes
    ∧ 0 <= e_orig_size e < 2 ^ 32 ∧ 0 <= e_stored_size e < 2 ^ 32
    ∧ r = name_field name_bytes ++ repeat Byte.x00 9
            ++ le_split 4 (e_orig_size e) ++ le_split 4 (e_stored_size e).
Proof.
  unfold index_record. split.
  - intros H. inv_bind H. injection H as <-.
    apply pack_u32_Ok in Hx0 as [? ->], Hx1 as [? ->]. eauto.
  - intros (nb & Hnb & Ho & Hs & ->).
    rewrite Hnb. simpl. rewrite !pack_u32_fits by assumption. reflexivity.
Qed.

Lemma length_index_record (e : file_entry) (r : bytes) :
  index_record e = Ok r -> length r = 32%nat.
Proof.
  intros (nb & _ & _ & _ & ->)%index_record_Ok.
  rewrite !length_app, length_name_field, repeat_length, !length_le_split. reflexivity.
Qed.

Lemma index_loop_Ok (es : list file_entry) : ∀ (acc t : bytes),
  index_loop es acc = Ok t ↔
  ∃ recs, Forall2 (fun e r => index_record e = Ok r) es recs ∧ t = acc ++ concat recs.
Proof.
  induction es as [|e es IH]; intros acc t; simpl.
  - split.
    + intros [= <-]. exists []. split; [constructor|]. simpl. by rewrite app_nil_r.
    + intros (recs & ->%Forall2_nil_inv_l & ->). simpl. by rewrite app_nil_r.
  - split.
    + intros H. inv_bind H. apply IH in H as (recs & Hrecs & ->).
      exists (x :: recs). split; [by constructor|]. simpl. by rewrite app_assoc.
    + intros (recs & Hrecs & ->).
      apply Forall2_cons_inv_l in Hrecs as (r & recs' & Hr & Hrecs & ->).
      rewrite Hr. simpl. apply IH. exists recs'. split; [done|].
      simpl. by rewrite app_assoc.
Qed.

Lemma length_records (es : list file_entry) (recs : list bytes) :
  Forall2 (fun e r => index_record e = Ok r) es recs ->
  Py.len (concat recs) = 32 * Py.len es.
Proof.
  induction 1 as [|e r es recs Hr _ IH]; [reflexivity|].
  simpl. rewrite len_app, IH. apply length_index_record in Hr.
  unfold Py.len. simpl length. lia.
Qed.

(** ** The whole image *)

Lemma length_header_bytes (i c : Z) : length (header_bytes i c) = 16%nat.
Proof. unfold header_bytes. rewrite !length_app, !length_le_split. reflexivity. Qed.

Lemma build_header_Ok (i c : Z) (h : bytes) :
  build_header i c = Ok h ↔ 0 <= i < 2 ^ 32 ∧ 0 <= c < 2 ^ 32 ∧ h = header_bytes i c.
Proof.
  unfold build_header. split.
  - intros H. inv_bind H. injection H as <-.
    apply pack_u32_Ok in Hx as [_ ->], Hx0 as [_ ->], Hx1 as [? ->], Hx2 as [? ->].
    auto.
  - intros (Hi & Hc & ->).
    rewrite (pack_u32_fits 0x00324146), (pack_u32_fits 0) by lia. simpl.
    rewrite !pack_u32_fits by assumption. reflexivity.
Qed.

Lemma build_Ok (entries : list (pystr * bytes)) (image : bytes) :
  build entries = Ok image ↔
  ∃ recs, 16 + total_padded entries < 2 ^ 32 ∧ Py.len entries < 2 ^ 32
    ∧ Forall2 (fun e r => index_record e = Ok r) (layout 16 entries) recs
    ∧ image = header_bytes (16 + total_padded entries) (Py.len entries)
                ++ data_region entries ++ concat recs.
Proof.
  unfold build, assemble. rewrite store_all_eq. simpl.
  assert (Hlen : Py.len (layout 16 entries) = Py.len entries)
    by (unfold Py.len; by rewrite length_layout).
  rewrite Hlen.
  pose proof (total_padded_nonneg entries). pose proof (len_nonneg entries).
  split.
  - intros Hb. inv_bind Hb. destruct x as [[h d] t]. injection Hb as <-.
    inv_bind Hx. injection Hx as <- <- <-.
    apply build_header_Ok in Hx0 as (? & ? & ->).
    apply index_loop_Ok in Hx1 as (recs & Hrecs & ->).
    exists recs. repeat split; try lia; done.
  - intros (recs & Hi & Hc & Hrecs & ->).
    assert (Hh : build_header (16 + total_padded entries) (Py.len entries)
                 = Ok (header_bytes (16 + total_padded entries) (Py.len entries)))
      by (apply build_header_Ok; repeat split; lia).
    rewrite Hh. simpl.
    assert (Ht : index_loop (layout 16 entries) [] = Ok (concat recs))
      by (apply index_loop_Ok; eauto).
    rewrite Ht. reflexivity.
Qed.

(** ** When the build succeeds *)

Lemma size_le_total_padded entries e :
  e ∈ entries -> Py.len e.2 <= total_padded entries.
Proof.
  induction 1 as [e entries|e e' entries _ IH]; simpl.
  - pose proof (align16_bounds (Py.len e.2)).
    pose proof (total_padded_nonneg entries). lia.
  - pose proof (align16_nonneg (Py.len e'.2) (len_nonneg _)). lia.
Qed.

Lemma records_exist entries : ∀ off,
  Forall (fun e => succeeds (Py.encode_utf8 e.1) ∧ Py.len e.2 < 2 ^ 32) entries ->
  ∃ recs, Forall2 (fun e r => index_record e = Ok r) (layout off entries) recs.
Proof.
  induction entries as [|e entries IH]; intros off Hall.
  - exists []. constructor.
  - apply Forall_cons in Hall as [[Hname Hsize] Hall].
    destruct (IH (off + align16 (Py.len e.2)) Hall) as [recs Hrecs].
    apply succeeds_Ok in Hname as [nb Hnb].
    eexists (_ :: recs). simpl. constructor; [|exact Hrecs].
    apply index_record_Ok. exists nb. simpl.
    pose proof (len_nonneg e.2). repeat split; auto; lia.
Qed.

Lemma records_encodable entries : ∀ off recs,
  Forall2 (fun e r => index_record e = Ok r) (layout off entries) recs ->
  Forall (fun e => succeeds (Py.encode_utf8 e.1)) entries.
Proof.
  induction entries as [|e entries IH]; intros off recs Hrecs; [constructor|].
  simpl in Hrecs. apply Forall2_cons_inv_l in Hrecs as (r & recs' & Hr & Hrecs & ->).
  constructor; [|by eapply IH].
  apply index_record_Ok in Hr as (nb & Hnb & _). simpl in Hnb.
  apply succeeds_Ok. eauto.
Qed.

(** The build raises only for a name that cannot be encoded or a number
    that does not fit an unsigned 32-bit field. *)
Lemma build_succeeds_iff entries :
  succeeds (build entries) ↔
  Forall (fun e => succeeds (Py.encode_utf8 e.1)) entries
  ∧ 16 + total_padded entries < 2 ^ 32 ∧ Py.len entries < 2 ^ 32.
Proof.
  rewrite succeeds_Ok. split.
  - intros (image & (recs & Hi & Hc & Hrecs & _)%build_Ok).
    split; [by eapply records_encodable|auto].
  - intros (Hnames & Hi & Hc).
    destruct (records_exist entries 16) as [recs Hrecs].
    { apply Forall_forall. intros e He. split.
      - by apply (proj1 (Forall_forall _ _) Hnames).
      - pose proof (size_le_total_padded _ _ He). lia. }
    eexists. apply build_Ok. exists recs. eauto.
Qed.

(** ** Header *)

Lemma header_bytes_fields (i c : Z) (rest : bytes) :
  0 <= i < 2 ^ 32 -> 0 <= c < 2 ^ 32 ->
  field_u32 0 (header_bytes i c ++ rest) = 0x00324146
  ∧ field_u32 4 (header_bytes i c ++ rest) = 0
  ∧ field_u32 8 (header_bytes i c ++ rest) = i
  ∧ field_u32 12 (header_bytes i c ++ rest) = c.
Proof.
  intros Hi Hc. unfold header_bytes. rewrite <- !app_assoc.
  set (s := le_split 4 0x00324146). set (f := le_split 4 0).
  assert (Hs : length s = 4%nat) by apply length_le_split.
  assert (Hf : length f = 4%nat) by apply length_le_split.
  split; [|split; [|split]].
  - apply (field_u32_here 0x00324146 [] _ 0); [lia|reflexivity].
  - apply (field_u32_here 0 s _ 4); [lia|exact Hs].
  - rewrite (app_assoc s f). apply field_u32_here; [exact Hi|].
    rewrite length_app. lia.
  - rewrite (app_assoc f), (app_assoc s). apply field_u32_here; [exact Hc|].
    rewrite !length_app, length_le_split. lia.
Qed.

Lemma image_header_fields (entries : list (pystr * bytes)) (image : bytes) :
  build entries = Ok image ->
  field_u32 8 image = 16 + total_padded entries
  ∧ field_u32 12 image = Py.len entries.
Proof.
  intros (recs & Hi & Hc & _ & ->)%build_Ok.
  pose proof (total_padded_nonneg entries). pose proof (len_nonneg entries).
  split; apply header_bytes_fields; lia.
Qed.

Lemma image_length (entries : list (pystr * bytes)) (image : bytes) :
  build entries = Ok image ->
  Py.len image = 16 + total_padded entries + 32 * Py.len entries.
Proof.
  intros (recs & _ & _ & Hrecs & ->)%build_Ok.
  rewrite !len_app, length_data_region, (length_records _ _ Hrecs).
  unfold Py.len at 1. rewrite length_header_bytes.
  unfold Py.len. rewrite length_layout. lia.
Qed.

(** C2. Whenever the archive is built, the little-endian 32-bit field at
    byte offset 8 (indexOffset) is 16 plus the sum of [align16] of the
    content lengths, and the field at byte offset 12 (entryCount) is the
    number of entries. *)
Theorem header_fields_correct (entries : list (pystr * bytes)) (image : bytes) :
  build entries = Ok image ->
  field_u32 8 image = 16 + total_padded entries
  ∧ field_u32 12 image = Py.len entries.
Proof.
  intros Hbuild. exact (image_header_fields entries image Hbuild).
Qed.

Lemma header_fields_correct_sample :
  field_u32 8 Sample.image = 16 + total_padded Sample.entries
  ∧ field_u32 12 Sample.image = Py.len Sample.entries.
Proof. apply (header_fields_correct Sample.entries Sample.image). vm_compute. reflexivity. Defined.

Example sample_index_offset : field_u32 8 Sample.image = 64.
Proof. vm_compute. reflexivity. Qed.

(** ** Length of the image *)

(** C3. Whenever the archive is built, its length is 16 plus the sum of
    [align16] of the content lengths plus 32 per entry; the build of the
    empty entry list succeeds and gives exactly the 16 header bytes:
    signature, flags 0, indexOffset 16, entryCount 0. *)
Theorem archive_length :
  (∀ (entries : list (pystr * bytes)) (image : bytes),
      build entries = Ok image ->
      Py.len image = 16 + total_padded entries + 32 * Py.len entries)
  ∧ build [] = Ok (header_bytes 16 0)
  ∧ header_bytes 16 0
    = [Byte.x46; Byte.x41; Byte.x32; Byte.x00; Byte.x00; Byte.x00; Byte.x00; Byte.x00;
       Byte.x10; Byte.x00; Byte.x00; Byte.x00; Byte.x00; Byte.x00; Byte.x00; Byte.x00].
Proof.
  split; [exact image_length|split; vm_compute; reflexivity].
Qed.

Lemma archive_length_sample :
  Py.len Sample.image = 16 + total_padded Sample.entries + 32 * Py.len Sample.entries.
Proof. apply (proj1 archive_length Sample.entries Sample.image). vm_compute. reflexivity. Defined.

Example sample_length : Py.len Sample.image = 128.
Proof. vm_compute. reflexivity. Qed.

(** ** Name field *)

(** C5. The first 15 bytes of an entry's index record are computed from
    the UTF-8 encoding of its name: the first 14 bytes and a null byte when
    the encoding has 15 bytes or more, otherwise the encoding, a null byte
    and zero bytes up to 15; the field has 15 bytes and the record 32. *)
Theorem name_field_correct (e : file_entry) (name_bytes record : bytes) :
  Py.encode_utf8 (e_fname e) = Ok name_bytes ->
  index_record e = Ok record ->
  take 15 record = name_field name_bytes
  ∧ ((15 <= length name_bytes)%nat ->
     name_field name_bytes = take 14 name_bytes ++ [Byte.x00])
  ∧ ((length name_bytes < 15)%nat ->
     name_field name_bytes
     = name_bytes ++ [Byte.x00] ++ repeat Byte.x00 (14 - length name_bytes))
  ∧ length (name_field name_bytes) = 15%nat
  ∧ length record = 32%nat.
Proof.
  intros Hname Hrec. pose proof (length_index_record _ _ Hrec) as Hlen.
  apply index_record_Ok in Hrec as (nb & Hnb & _ & _ & ->).
  rewrite Hname in Hnb. injection Hnb as <-.
  split; [|split; [|split; [|split]]].
  - apply take_app_length'. symmetry. apply length_name_field.
  - apply name_field_long.
  - apply name_field_short.
  - apply length_name_field.
  - exact Hlen.
Qed.

Lemma name_field_correct_sample :
  take 15 Sample.long_record = name_field Sample.long_name_bytes
  ∧ ((15 <= length Sample.long_name_bytes)%nat ->
     name_field Sample.long_name_bytes = take 14 Sample.long_name_bytes ++ [Byte.x00])
  ∧ ((length Sample.long_name_bytes < 15)%nat ->
     name_field Sample.long_name_bytes
     = Sample.long_name_bytes ++ [Byte.x00]
         ++ repeat Byte.x00 (14 - length Sample.long_name_bytes))
  ∧ length (name_field Sample.long_name_bytes) = 15%nat
  ∧ length Sample.long_record = 32%nat.
Proof.
  apply (name_field_correct Sample.long_entry); vm_compute; reflexivity.
Defined.

(** The name of the format description's truncation case is stored as its
    first fourteen bytes, "this_name_is_d", and a null byte. *)
Example long_name_truncated :
  Py.encode_utf8 (Py.str "this_name_is_d") = Ok (take 14 Sample.long_name_bytes)
  ∧ take 15 Sample.long_record = take 14 Sample.long_name_bytes ++ [Byte.x00].
Proof. split; vm_compute; reflexivity. Qed.

(** ** Data offsets *)

Lemma total_padded_app (l k : list (pystr * bytes)) :
  total_padded (l ++ k) = total_padded l + total_padded k.
Proof. induction l as [|e l IH]; simpl; lia. Qed.

Lemma total_padded_mod entries : total_padded entries mod 16 = 0.
Proof.
  induction entries as [|e entries IH]; [reflexivity|]. simpl.
  rewrite Z.add_mod, align16_mod, IH by lia. reflexivity.
Qed.

Lemma total_padded_take_S entries (i : nat) e :
  entries !! i = Some e ->
  total_padded (take (S i) entries) = total_padded (take i entries) + align16 (Py.len e.2).
Proof.
  intros H. rewrite (take_S_r _ _ _ H), total_padded_app. simpl. lia.
Qed.

Lemma layout_lookup entries : ∀ (off : Z) (i : nat) (fe : file_entry),
  layout off entries !! i = Some fe ↔
  ∃ e, entries !! i = Some e
       ∧ fe = FileEntry e.1 (Py.len e.2) (Py.len e.2) (off + total_padded (take i entries)).
Proof.
  induction entries as [|e entries IH]; intros off i fe.
  - simpl. split; [done|]. intros (e & He & _). done.
  - destruct i as [|i]; simpl.
    + rewrite Z.add_0_r. split.
      * intros [= <-]. eauto.
      * intros (e' & [= <-] & ->). done.
    + rewrite IH. split; intros (e' & He' & ->); exists e'; (split; [done|]); f_equal; lia.
Qed.

Lemma file_entries_layout entries :
  file_entries (store_all entries init_state) = layout 16 entries.
Proof. rewrite store_all_eq. reflexivity. Qed.

Lemma data_region_app (l k : list (pystr * bytes)) :
  data_region (l ++ k) = data_region l ++ data_region k.
Proof. unfold data_region. by rewrite map_app, concat_app. Qed.

Lemma data_region_split entries (i : nat) e :
  entries !! i = Some e ->
  data_region entries
  = data_region (take i entries) ++ padded e.2 ++ data_region (drop (S i) entries).
Proof.
  intros He. rewrite <- (take_drop_middle _ _ _ He) at 1.
  rewrite data_region_app. reflexivity.
Qed.

(** An entry's content lies in the image at its data offset. *)
Lemma content_at_offset entries image (i : nat) e :
  build entries = Ok image -> entries !! i = Some e ->
  take (length e.2) (drop (Z.to_nat (16 + total_padded (take i entries))) image) = e.2.
Proof.
  intros (recs & _ & _ & _ & ->)%build_Ok He.
  rewrite (data_region_split _ _ _ He).
  unfold padded. rewrite <- !app_assoc.
  rewrite (app_assoc (header_bytes _ _)).
  rewrite drop_app_length'.
  - by rewrite take_app_length.
  - rewrite length_app, length_header_bytes.
    pose proof (length_data_region (take i entries)) as Hl. unfold Py.len in Hl.
    pose proof (total_padded_nonneg (take i entries)). lia.
Qed.

(** C4. In the entry list the first loop builds, the first data offset is
    16, each later one is the previous offset plus [align16] of the previous
    entry's size, every offset is a multiple of 16, and each entry's content
    lies in the image at its offset; [align16 n] is [(n + 15) & ~15], the
    least multiple of 16 not below [n], so multiples of 16, 0 included, are
    unchanged. *)
Theorem data_offsets_aligned (entries : list (pystr * bytes)) :
  let fes := file_entries (store_all entries init_state) in
  (∀ (i : nat) e, entries !! i = Some e ->
     ∃ fe, fes !! i = Some fe ∧ e_fname fe = e.1 ∧ e_orig_size fe = Py.len e.2)
  ∧ (∀ fe, fes !! 0%nat = Some fe -> e_offset fe = 16)
  ∧ (∀ (i : nat) a b, fes !! i = Some a -> fes !! S i = Some b ->
       e_offset b = e_offset a + align16 (e_orig_size a))
  ∧ (∀ (i : nat) fe, fes !! i = Some fe -> e_offset fe mod 16 = 0)
  ∧ (∀ image (i : nat) fe e,
       build entries = Ok image -> fes !! i = Some fe -> entries !! i = Some e ->
       take (length e.2) (drop (Z.to_nat (e_offset fe)) image) = e.2)
  ∧ (∀ n, align16 n = Z.land (n + 15) (Z.lnot 15))
  ∧ (∀ n, n <= align16 n < n + 16 ∧ align16 n mod 16 = 0)
  ∧ (∀ n, n mod 16 = 0 -> align16 n = n)
  ∧ align16 0 = 0.
Proof.
  intros fes. subst fes. rewrite file_entries_layout.
  split; [|split; [|split; [|split; [|split; [|split; [|split; [|split]]]]]]].
  - intros i e He. eexists. split; [apply layout_lookup; eauto|]. done.
  - intros fe (e & _ & ->)%layout_lookup. simpl. lia.
  - intros i a b (ea & Hea & ->)%layout_lookup (eb & Heb & ->)%layout_lookup. simpl.
    rewrite (total_padded_take_S _ _ _ Hea). lia.
  - intros i fe (e & _ & ->)%layout_lookup. simpl.
    rewrite Z.add_mod, total_padded_mod by lia. reflexivity.
  - intros image i fe e Hb (e' & He' & ->)%layout_lookup He.
    rewrite He in He'. injection He' as <-. simpl.
    by apply content_at_offset.
  - reflexivity.
  - intros n. split; [apply align16_bounds|apply align16_mod].
  - apply align16_multiple.
  - reflexivity.
Qed.

(** The worked example: offsets 16 and 32, sizes 2 and 20. *)
Example sample_layout :
  file_entries (store_all Sample.entries init_state)
  = [FileEntry (Py.str "a.txt") 2 2 16; FileEntry (Py.str "b.dat") 20 20 32].
Proof. vm_compute. reflexivity. Qed.

(** ** Entries without content *)

Lemma total_padded_hollow entries :
  Forall (fun e => e.2 = []) entries -> total_padded entries = 0.
Proof.
  induction 1 as [|e entries He _ IH]; [reflexivity|].
  simpl. rewrite He, IH. reflexivity.
Qed.

(** C9. An entry with empty content adds no byte to the data region and
    leaves the running data offset unchanged, so the entry after it gets
    the same data offset; when every content is empty the indexOffset field
    is 16 whatever the number of entries, as for the three entries of
    [Sample.hollow], which all have data offset 16. *)
Theorem empty_content_takes_no_space :
  (∀ st fname,
      file_data (store_file st fname []) = file_data st
      ∧ data_offset (store_file st fname []) = data_offset st)
  ∧ (∀ entries (i : nat) e a b,
       let fes := file_entries (store_all entries init_state) in
       entries !! i = Some e -> e.2 = [] ->
       fes !! i = Some a -> fes !! S i = Some b ->
       e_offset b = e_offset a)
  ∧ (∀ entries image,
       Forall (fun e => e.2 = []) entries -> build entries = Ok image ->
       field_u32 8 image = 16 ∧ field_u32 12 image = Py.len entries)
  ∧ (∃ image,
       build Sample.hollow = Ok image
       ∧ field_u32 8 image = 16 ∧ field_u32 12 image = 3
       ∧ e_offset <$> file_entries (store_all Sample.hollow init_state) = [16; 16; 16]
       ∧ NoDup (e_fname <$> file_entries (store_all Sample.hollow init_state))).
Proof.
  split; [|split; [|split]].
  - intros st fname. rewrite store_file_eq. simpl. split.
    + apply app_nil_r.
    + change (align16 (Py.len [])) with 0. lia.
  - intros entries i e a b fes He Hempty Ha Hb. subst fes.
    rewrite file_entries_layout in Ha, Hb.
    apply layout_lookup in Ha as (ea & Hea & ->), Hb as (eb & Heb & ->). simpl.
    rewrite (total_padded_take_S _ _ _ He), Hempty.
    change (align16 (Py.len [])) with 0. lia.
  - intros entries image Hall Hb.
    destruct (image_header_fields _ _ Hb) as [Hi Hc].
    rewrite (total_padded_hollow _ Hall) in Hi. split; [exact Hi|exact Hc].
  - eexists. split; [vm_compute; reflexivity|].
    split; [vm_compute; reflexivity|].
    split; [vm_compute; reflexivity|].
    split; [vm_compute; reflexivity|].
    apply (bool_decide_unpack _). vm_compute. exact I.
Qed.

(** ** UTF-8 *)

Lemma unsigned_of_Z_small (x : Z) : 0 <= x < 256 -> byte.unsigned (byte.of_Z x) = x.
Proof. intros H. rewrite byte.unsigned_of_Z. apply Z.mod_small. exact H. Qed.

Ltac arith := Z.div_mod_to_equations; lia.

(** Settles one comparison of the goal whose outcome linear arithmetic
    decides. *)
Ltac decide_test :=
  match goal with
  | |- context [Z.ltb ?a ?b] =>
      first [ rewrite (proj2 (Z.ltb_lt a b)) by lia
            | rewrite (proj2 (Z.ltb_ge a b)) by lia ]
  | |- context [Z.leb ?a ?b] =>
      first [ rewrite (proj2 (Z.leb_le a b)) by lia
            | rewrite (proj2 (Z.leb_gt a b)) by lia ]
  end.

Ltac decode_step :=
  cbn [app Reader.decode_utf8]; unfold Reader.is_cont;
  rewrite !unsigned_of_Z_small by lia;
  repeat decide_test; cbn [andb negb];
  match goal with
  | |- context [Reader.decode_utf8 ?rest] =>
      destruct (Reader.decode_utf8 rest); simpl; [do 2 f_equal; lia | reflexivity]
  end.

(** The decoder on each of the four forms, the payload given by its base-64
    digits. *)
Lemma decode_1 (c : Z) (rest : bytes) :
  0 <= c < 0x80 ->
  Reader.decode_utf8 (byte.of_Z c :: rest)
  = s ← Reader.decode_utf8 rest; Some (c :: s).
Proof. intros H. decode_step. Qed.

Lemma decode_2 (d1 d0 : Z) (rest : bytes) :
  2 <= d1 < 32 -> 0 <= d0 < 64 ->
  Reader.decode_utf8 (byte.of_Z (0xC0 + d1) :: byte.of_Z (0x80 + d0) :: rest)
  = s ← Reader.decode_utf8 rest; Some (64 * d1 + d0 :: s).
Proof. intros H1 H0. decode_step. Qed.

Lemma decode_3 (d2 d1 d0 : Z) (rest : bytes) :
  0 <= d2 < 16 -> 0 <= d1 < 64 -> 0 <= d0 < 64 ->
  0x800 <= 4096 * d2 + 64 * d1 + d0 ->
  ¬ (0xD800 <= 4096 * d2 + 64 * d1 + d0 <= 0xDFFF) ->
  Reader.decode_utf8
    (byte.of_Z (0xE0 + d2) :: byte.of_Z (0x80 + d1) :: byte.of_Z (0x80 + d0) :: rest)
  = s ← Reader.decode_utf8 rest; Some (4096 * d2 + 64 * d1 + d0 :: s).
Proof.
  intros H2 H1 H0 Hlow Hsur.
  cbn [app Reader.decode_utf8]; unfold Reader.is_cont.
  rewrite !unsigned_of_Z_small by lia.
  replace ((0xE0 + d2 - 0xE0) * 4096 + (0x80 + d1 - 0x80) * 64 + (0x80 + d0 - 0x80))
    with (4096 * d2 + 64 * d1 + d0) by lia.
  set (c := 4096 * d2 + 64 * d1 + d0) in *.
  repeat decide_test. cbn [andb negb].
  destruct (Z.leb_spec 0xD800 c); destruct (Z.leb_spec c 0xDFFF);
    cbn [andb negb]; try lia; reflexivity.
Qed.

Lemma decode_4 (d3 d2 d1 d0 : Z) (rest : bytes) :
  0 <= d3 < 8 -> 0 <= d2 < 64 -> 0 <= d1 < 64 -> 0 <= d0 < 64 ->
  0x10000 <= 262144 * d3 + 4096 * d2 + 64 * d1 + d0 < 0x110000 ->
  Reader.decode_utf8
    (byte.of_Z (0xF0 + d3) :: byte.of_Z (0x80 + d2) :: byte.of_Z (0x80 + d1)
       :: byte.of_Z (0x80 + d0) :: rest)
  = s ← Reader.decode_utf8 rest; Some (262144 * d3 + 4096 * d2 + 64 * d1 + d0 :: s).
Proof.
  intros H3 H2 H1 H0 Hc.
  cbn [app Reader.decode_utf8]; unfold Reader.is_cont.
  rewrite !unsigned_of_Z_small by lia.
  replace ((0xF0 + d3 - 0xF0) * 262144 + (0x80 + d2 - 0x80) * 4096
           + (0x80 + d1 - 0x80) * 64 + (0x80 + d0 - 0x80))
    with (262144 * d3 + 4096 * d2 + 64 * d1 + d0) by lia.
  set (c := 262144 * d3 + 4096 * d2 + 64 * d1 + d0) in *.
  repeat decide_test. cbn [andb negb]. reflexivity.
Qed.

(** Decoding undoes the encoding of one code point. *)
Lemma decode_utf8_char (c : Z) (b rest : bytes) :
  Py.utf8_char c = Ok b ->
  Reader.decode_utf8 (b ++ rest) = s ← Reader.decode_utf8 rest; Some (c :: s).
Proof.
  unfold Py.utf8_char. intros H.
  destruct (Z.ltb_spec c 0); [discriminate|].
  destruct (Z.ltb_spec c 0x80).
  { injection H as <-. apply decode_1. lia. }
  destruct (Z.ltb_spec c 0x800).
  { injection H as <-. cbn [app].
    rewrite decode_2 by arith.
    replace (64 * (c / 64) + c mod 64) with c by arith. reflexivity. }
  assert (Hsur : ¬ (0xD800 <= c <= 0xDFFF)).
  { destruct (Z.leb_spec 0xD800 c); destruct (Z.leb_spec c 0xDFFF);
      cbn [andb] in H; try discriminate; lia. }
  destruct ((0xD800 <=? c) && (c <=? 0xDFFF)); [discriminate|].
  destruct (Z.ltb_spec c 0x10000).
  { injection H as <-. cbn [app].
    assert (Hc : 4096 * (c / 4096) + 64 * ((c / 64) mod 64) + c mod 64 = c) by arith.
    rewrite decode_3; rewrite ?Hc; try arith; try assumption. reflexivity. }
  destruct (Z.ltb_spec c 0x110000); [|discriminate].
  injection H as <-. cbn [app].
  assert (Hc : 262144 * (c / 262144) + 4096 * ((c / 4096) mod 64)
               + 64 * ((c / 64) mod 64) + c mod 64 = c) by arith.
  rewrite decode_4; rewrite ?Hc; try arith. reflexivity.
Qed.

Lemma decode_encode_utf8 (s : pystr) : ∀ (bs : bytes),
  Py.encode_utf8 s = Ok bs -> Reader.decode_utf8 bs = Some s.
Proof.
  induction s as [|c s IH]; intros bs H; simpl in H.
  - injection H as <-. reflexivity.
  - inv_bind H. injection H as <-.
    rewrite (decode_utf8_char _ _ _ Hx), (IH _ Hx0). reflexivity.
Qed.

(** Encoding is injective: a reader can tell any two names apart by their
    encodings. *)
Lemma encode_utf8_inj (s t : pystr) (bs : bytes) :
  Py.encode_utf8 s = Ok bs -> Py.encode_utf8 t = Ok bs -> s = t.
Proof.
  intros Hs%decode_encode_utf8 Ht%decode_encode_utf8. congruence.
Qed.

(** C10. Truncation cuts the UTF-8 bytes, not the characters. The name
    [Sample.straddling_name] (thirteen "a", U+00E9, "b") encodes to 16 bytes
    with the two bytes C3 A9 of U+00E9 at positions 13 and 14. The name
    field the builder computes for it, which is also the first 15 bytes of
    the index record in the archive built for an entry of that name, is 14
    bytes [stored] followed by a null byte; [stored] has no null byte, is
    the 14-byte prefix of the encoding and ends with the lone byte C3, which
    the strict decoder rejects and which is the encoding of no string at
    all, so of no prefix of the name. *)
Theorem truncation_splits_character :
  ∃ (name : pystr) (name_bytes stored image : bytes),
    Py.encode_utf8 name = Ok name_bytes
    ∧ (15 <= length name_bytes)%nat
    ∧ name !! 13%nat = Some 0xE9
    ∧ Py.utf8_char 0xE9 = Ok [Byte.xc3; Byte.xa9]
    ∧ name_bytes !! 13%nat = Some Byte.xc3
    ∧ name_bytes !! 14%nat = Some Byte.xa9
    ∧ name_field name_bytes = stored ++ [Byte.x00]
    ∧ build [(name, [])] = Ok image
    ∧ take 15 (drop (Z.to_nat (field_u32 8 image)) image) = stored ++ [Byte.x00]
    ∧ length stored = 14%nat
    ∧ (Byte.x00 ∉ stored)
    ∧ stored = take 14 name_bytes
    ∧ last stored = Some Byte.xc3
    ∧ Reader.decode_utf8 stored = None
    ∧ (∀ s : pystr, Py.encode_utf8 s ≠ Ok stored)
    ∧ (∀ s : pystr, s `prefix_of` name -> Py.encode_utf8 s ≠ Ok stored).
Proof.
  exists Sample.straddling_name, Sample.straddling_bytes,
    ((byte.of_Z <$> Py.str "aaaaaaaaaaaaa") ++ [Byte.xc3]).
  set (stored := (byte.of_Z <$> Py.str "aaaaaaaaaaaaa") ++ [Byte.xc3]).
  destruct (build [(Sample.straddling_name, [])]) as [image|e] eqn:Himage;
    [|vm_compute in Himage; discriminate].
  exists image.
  assert (Hnone : Reader.decode_utf8 stored = None) by (vm_compute; reflexivity).
  assert (Hno : ∀ s : pystr, Py.encode_utf8 s ≠ Ok stored).
  { intros s Hs. apply decode_encode_utf8 in Hs. rewrite Hnone in Hs. discriminate. }
  assert (Hfield : name_field Sample.straddling_bytes = stored ++ [Byte.x00])
    by (vm_compute; reflexivity).
  split; [vm_compute; reflexivity|].
  split; [vm_compute; lia|].
  split; [vm_compute; reflexivity|].
  split; [vm_compute; reflexivity|].
  split; [vm_compute; reflexivity|].
  split; [vm_compute; reflexivity|].
  split; [exact Hfield|].
  split; [reflexivity|].
  split.
  { vm_compute in Himage. injection Himage as <-. vm_compute. reflexivity. }
  split; [vm_compute; reflexivity|].
  split; [apply (bool_decide_unpack _); vm_compute; exact I|].
  split; [vm_compute; reflexivity|].
  split; [vm_compute; reflexivity|].
  split; [exact Hnone|].
  split; [exact Hno|].
  intros s _. apply Hno.
Qed.

(** ** Reading an archive back *)

Lemma c_string_terminated (name_bytes rest : bytes) :
  Byte.x00 ∉ name_bytes -> Reader.c_string (name_bytes ++ Byte.x00 :: rest) = name_bytes.
Proof.
  induction name_bytes as [|b bs IH]; intros Hnot; simpl.
  - destruct (decide (Byte.x00 = Byte.x00)); [reflexivity|done].
  - apply not_elem_of_cons in Hnot as [Hb Hbs].
    destruct (decide (b = Byte.x00)) as [->|_]; [done|].
    by rewrite IH.
Qed.










(** ** Order of names *)

Ltac cmp_cases :=
  repeat match goal with
  | H : context [Z.ltb ?a ?b] |- _ => destruct (Z.ltb_spec a b)
  | H : context [Z.eqb ?a ?b] |- _ => destruct (Z.eqb_spec a b)
  | |- context [Z.ltb ?a ?b] => destruct (Z.ltb_spec a b)
  | |- context [Z.eqb ?a ?b] => destruct (Z.eqb_spec a b)
  end;
  simpl in *; try lia; try discriminate.

#[local] Instance str_le_total : Total Py.str_le.
Proof.
  unfold Py.str_le. intros s. induction s as [|a s IH]; intros [|b t]; simpl; auto.
  destruct (IH t) as [H|H]; rewrite H; cmp_cases; auto.
Qed.

#[local] Instance str_le_antisymm : AntiSymm (=) Py.str_le.
Proof.
  unfold Py.str_le. intros s. induction s as [|a s IH]; intros [|b t]; simpl; try done.
  intros H1 H2. cmp_cases. subst. f_equal. auto.
Qed.

#[local] Instance str_le_transitive : Transitive Py.str_le.
Proof.
  unfold Py.str_le. intros s.
  induction s as [|a s IH]; intros [|b t] [|c u]; simpl; try done.
  intros H1 H2. cmp_cases. subst. eauto.
Qed.

Lemma sort_names_permutation (l k : list pystr) :
  l ≡ₚ k -> merge_sort Py.str_le l = merge_sort Py.str_le k.
Proof.
  intros H. apply (Sorted_unique Py.str_le).
  - apply Sorted_merge_sort, _.
  - apply Sorted_merge_sort, _.
  - by rewrite !merge_sort_Permutation.
Qed.

(** ** The directory *)

Lemma lookup_node_permutation (d1 d2 : list (pystr * node)) (f : pystr) :
  NoDup d1.*1 -> d1 ≡ₚ d2 -> lookup_node d1 f = lookup_node d2 f.
Proof.
  intros Hnd Hp.
  induction Hp as [|[g x] l l' Hp IH|[g x] [h y] l|l l' l'' Hp1 IH1 Hp2 IH2].
  - reflexivity.
  - simpl in *. apply NoDup_cons in Hnd as [_ Hnd]. by rewrite IH.
  - simpl in *. apply NoDup_cons in Hnd as [Hnot _].
    destruct (decide (h = f)) as [->|]; destruct (decide (g = f)) as [->|]; try done.
    exfalso. apply Hnot. left.
  - rewrite IH1 by done. apply IH2. by rewrite <- Hp1.
Qed.

Section SameDirectory.

Variables (w1 w2 : world) (d1 d2 : list (pystr * node)).
Hypothesis (Hd1 : src_dir w1 = Some d1) (Hd2 : src_dir w2 = Some d2).
Hypothesis (Hnodup : NoDup d1.*1) (Hperm : d1 ≡ₚ d2).

Lemma read_file_same (f : pystr) : read_file w1 f = read_file w2 f.
Proof.
  unfold read_file. rewrite Hd1, Hd2.
  by rewrite (lookup_node_permutation d1 d2 f).
Qed.

Lemma isfile_same (f : pystr) : os_path_isfile w1 f = os_path_isfile w2 f.
Proof.
  unfold os_path_isfile. rewrite Hd1, Hd2.
  by rewrite (lookup_node_permutation d1 d2 f).
Qed.

Lemma read_loop_same (files : list pystr) : ∀ st,
  read_loop w1 files st = read_loop w2 files st.
Proof.
  induction files as [|f files IH]; intros st; simpl; [reflexivity|].
  rewrite read_file_same. destruct (read_file w2 f); simpl; [apply IH|reflexivity].
Qed.

Lemma files_same :
  merge_sort Py.str_le (filter (fun f => os_path_isfile w1 f = true) d1.*1)
  = merge_sort Py.str_le (filter (fun f => os_path_isfile w2 f = true) d2.*1).
Proof.
  apply sort_names_permutation.
  rewrite (list_filter_iff _ (fun f => os_path_isfile w2 f = true)).
  - by rewrite Hperm.
  - intros f. by rewrite isfile_same.
Qed.

Lemma gather_same : gather w1 = gather w2.
Proof.
  unfold gather, os_listdir. rewrite Hd1, Hd2. cbn [mbind result_bind].
  rewrite files_same. by rewrite read_loop_same.
Qed.

End SameDirectory.

(** The first loop stores the files it reads, in the order of [files]. *)
Lemma read_loop_Ok (w : world) (files : list pystr) : ∀ st st',
  read_loop w files st = Ok st' ↔
  ∃ entries, entries.*1 = files
             ∧ Forall (fun e => read_file w e.1 = Ok e.2) entries
             ∧ st' = store_all entries st.
Proof.
  induction files as [|f files IH]; intros st st'; simpl.
  - split.
    + intros [= <-]. exists []. repeat split; constructor.
    + intros (entries & ->%fmap_nil_inv & _ & ->). reflexivity.
  - split.
    + intros H. inv_bind H. apply IH in H as (entries & <- & Hall & ->).
      exists ((f, x) :: entries). repeat split. by constructor.
    + intros ([|[g x] entries] & Hf & Hall & ->); [done|].
      simpl in Hf. injection Hf as -> <-.
      apply Forall_cons in Hall as [Hx Hall]. simpl in Hx. rewrite Hx. simpl.
      apply IH. eauto.
Qed.

(** What [pack_fa2] is about to write is the image [build] gives for the
    regular files of the directory, sorted by name. *)
Lemma gather_build (w : world) n header data index_table :
  gather w = Ok (n, (header, data, index_table)) ->
  ∃ dir entries,
    src_dir w = Some dir
    ∧ entries.*1
      = merge_sort Py.str_le (filter (fun f => os_path_isfile w f = true) dir.*1)
    ∧ Forall (fun e => read_file w e.1 = Ok e.2) entries
    ∧ n = Py.len entries
    ∧ build entries = Ok (header ++ data ++ index_table).
Proof.
  unfold gather, os_listdir. intros H.
  destruct (src_dir w) as [dir|] eqn:Hdir; [|discriminate].
  inv_bind H. injection Hx as <-. injection H as <- ->.
  apply read_loop_Ok in Hx0 as (entries & Hnames & Hall & ->).
  exists dir, entries. split; [reflexivity|]. split; [exact Hnames|]. split; [exact Hall|].
  split.
  - rewrite file_entries_layout. unfold Py.len. by rewrite length_layout.
  - unfold build. rewrite Hx1. reflexivity.
Qed.

(** ** Failing runs *)

(** The run, case by case, once the inputs are gathered. *)
Lemma pack_fa2_gather_Raise (w : world) (e : exn) :
  gather w = Raise e -> pack_fa2 w = (Raise e, w).
Proof. unfold pack_fa2. by intros ->. Qed.

Lemma pack_fa2_gather_Ok (w : world) (n : Z) (header data index_table : bytes) :
  gather w = Ok (n, (header, data, index_table)) ->
  pack_fa2 w
  = match out_dev w with
    | NoFault => (Ok n, set_out_file w (header ++ data ++ index_table))
    | OpenFails => (Raise OSError, w)
    | OpenNotFound => (Raise FileNotFoundError, w)
    | DiskFull room =>
        if (room <? length (header ++ data ++ index_table))%nat
        then (Raise OSError, set_out_file w (take room (header ++ data ++ index_table)))
        else (Ok n, set_out_file w (header ++ data ++ index_table))
    | PrintFails => (Raise UnicodeEncodeError, set_out_file w (header ++ data ++ index_table))
    end.
Proof.
  unfold pack_fa2, write_out, print_created. intros ->.
  destruct w as [sd ofile [| | |room|]]; simpl; try reflexivity.
  destruct (room <? length (header ++ data ++ index_table))%nat; reflexivity.
Qed.

(** C7, as the code has it: the output file is opened only after every
    input has been read and the whole image assembled, and nothing is
    written elsewhere. A failing run whose writes the device does not cut
    short leaves no corrupt or truncated output: when it fails before or at
    the opening (directory missing, file unreadable, name not encodable,
    number not fitting 32 bits, output not openable) the file system is as
    it was; when it fails after the writes (the success message cannot be
    printed) the output file holds the complete image. *)
Theorem failed_run_output (w : world) (e : exn) :
  (pack_fa2 w).1 = Raise e ->
  ¬ write_cut_short w ->
  ((pack_fa2 w).2 = w
   ∨ ∃ n header data index_table dir entries,
       out_dev w = PrintFails
       ∧ e = UnicodeEncodeError
       ∧ gather w = Ok (n, (header, data, index_table))
       ∧ src_dir w = Some dir
       ∧ entries.*1
         = merge_sort Py.str_le (filter (fun f => os_path_isfile w f = true) dir.*1)
       ∧ Forall (fun x => read_file w x.1 = Ok x.2) entries
       ∧ build entries = Ok (header ++ data ++ index_table)
       ∧ out_file (pack_fa2 w).2 = Some (header ++ data ++ index_table))
  ∧ (¬ succeeds (gather w) ∨ out_dev w = OpenFails ∨ out_dev w = OpenNotFound ->
     (pack_fa2 w).2 = w)
  ∧ (succeeds (gather w) -> out_dev w = OpenFails ∨ out_dev w = OpenNotFound ->
     is_OSError e = true).
Proof.
  intros Hfail Hnot.
  destruct (gather w) as [[n [[header data] index_table]]|e'] eqn:Hg.
  2:{ rewrite (pack_fa2_gather_Raise w e' Hg) in *. simpl.
      split; [by left|]. split; [done|]. by intros []. }
  rewrite (pack_fa2_gather_Ok w n header data index_table Hg) in *.
  destruct (out_dev w) as [| | |room|] eqn:Hdev; simpl in *.
  - discriminate.
  - injection Hfail as <-. split; [by left|]. split; done.
  - injection Hfail as <-. split; [by left|]. split; done.
  - destruct (room <? length (header ++ data ++ index_table))%nat eqn:Hroom;
      simpl in *; [|discriminate].
    exfalso. apply Hnot. exists room, n, header, data, index_table.
    apply Nat.ltb_lt in Hroom. rewrite Hg. auto.
  - injection Hfail as <-. split; [|split].
    + right.
      destruct (gather_build _ _ _ _ _ Hg)
        as (dir & entries & Hdir & Hnames & Hall & _ & Hbuild).
      exists n, header, data, index_table, dir, entries. auto 10.
    + intros [Hno|[?|?]]; [by destruct Hno|discriminate..].
    + intros _ [?|?]; discriminate.
Qed.

Lemma mute_not_cut_short : ¬ write_cut_short Sample.mute.
Proof. intros (room & n & header & data & index_table & Hdev & _). discriminate. Qed.

Lemma failed_run_output_sample :
  ((pack_fa2 Sample.mute).2 = Sample.mute
   ∨ ∃ n header data index_table dir entries,
       out_dev Sample.mute = PrintFails
       ∧ UnicodeEncodeError = UnicodeEncodeError
       ∧ gather Sample.mute = Ok (n, (header, data, index_table))
       ∧ src_dir Sample.mute = Some dir
       ∧ entries.*1
         = merge_sort Py.str_le
             (filter (fun f => os_path_isfile Sample.mute f = true) dir.*1)
       ∧ Forall (fun x => read_file Sample.mute x.1 = Ok x.2) entries
       ∧ build entries = Ok (header ++ data ++ index_table)
       ∧ out_file (pack_fa2 Sample.mute).2 = Some (header ++ data ++ index_table))
  ∧ (¬ succeeds (gather Sample.mute)
     ∨ out_dev Sample.mute = OpenFails ∨ out_dev Sample.mute = OpenNotFound ->
     (pack_fa2 Sample.mute).2 = Sample.mute)
  ∧ (succeeds (gather Sample.mute) ->
     out_dev Sample.mute = OpenFails ∨ out_dev Sample.mute = OpenNotFound ->
     is_OSError UnicodeEncodeError = true).
Proof.
  apply (failed_run_output Sample.mute UnicodeEncodeError).
  - vm_compute. reflexivity.
  - exact mute_not_cut_short.
Defined.

(** The success message fails to print: the run ends with an exception and
    the output file holds the complete 128-byte image. *)
Example print_failure_keeps_archive :
  pack_fa2 Sample.mute = (Raise UnicodeEncodeError, set_out_file Sample.mute Sample.image).
Proof. vm_compute. reflexivity. Qed.

(** A write cut short after twenty bytes: the run fails, and the output
    file, which held one byte before, now holds the first twenty bytes of the
    128-byte image. *)
Lemma short_write_truncates :
  (pack_fa2 Sample.full_disk).1 = Raise OSError
  ∧ out_file Sample.full_disk = Some [Byte.x01]
  ∧ out_file (pack_fa2 Sample.full_disk).2 = Some (take 20 Sample.image)
  ∧ length (take 20 Sample.image) = 20%nat
  ∧ length Sample.image = 128%nat
  ∧ out_file (pack_fa2 Sample.full_disk).2 ≠ out_file Sample.full_disk
  ∧ out_file (pack_fa2 Sample.full_disk).2 ≠ Some Sample.image.
Proof.
  split; [vm_compute; reflexivity|].
  split; [vm_compute; reflexivity|].
  split; [vm_compute; reflexivity|].
  split; [vm_compute; reflexivity|].
  split; [vm_compute; reflexivity|].
  split; vm_compute; discriminate.
Qed.

(** The run of the counterexample is one whose writes are cut short. *)
Example full_disk_cut_short : write_cut_short Sample.full_disk.
Proof.
  unfold write_cut_short. eexists 20%nat, _, _, _, _.
  split; [reflexivity|]. split; [vm_compute; reflexivity|]. vm_compute. lia.
Qed.

(** The script's own checks end the run before anything is touched. *)
Lemma main_exit_untouched (argc : Z) (w : world) (code : Z) :
  (main argc w).1 = Exit code -> (main argc w).2 = w.
Proof.
  unfold main. destruct (argc <? 3); [done|].
  destruct (negb (os_path_isdir w)); [done|].
  destruct (pack_fa2 w) as [[n|e] w']; discriminate.
Qed.

(** ** Determinism *)

(** A successful run leaves in the output file the image [build] gives for
    the regular files of the directory, sorted by name. *)
Lemma pack_fa2_Ok (w : world) (n : Z) :
  (pack_fa2 w).1 = Ok n ->
  ∃ dir entries image,
    src_dir w = Some dir
    ∧ entries.*1
      = merge_sort Py.str_le (filter (fun f => os_path_isfile w f = true) dir.*1)
    ∧ Forall (fun e => read_file w e.1 = Ok e.2) entries
    ∧ n = Py.len entries
    ∧ build entries = Ok image
    ∧ out_file (pack_fa2 w).2 = Some image.
Proof.
  destruct (gather w) as [[m [[header data] index_table]]|e] eqn:Hg.
  2:{ rewrite (pack_fa2_gather_Raise w e Hg). discriminate. }
  rewrite (pack_fa2_gather_Ok _ _ _ _ _ Hg).
  apply gather_build in Hg as (dir & entries & Hdir & Hnames & Hall & -> & Hbuild).
  assert (Hdone : ∃ dir0 entries0 image,
    src_dir w = Some dir0
    ∧ entries0.*1
      = merge_sort Py.str_le (filter (fun f => os_path_isfile w f = true) dir0.*1)
    ∧ Forall (fun e => read_file w e.1 = Ok e.2) entries0
    ∧ Py.len entries = Py.len entries0
    ∧ build entries0 = Ok image
    ∧ Some (header ++ data ++ index_table) = Some image)
    by (exists dir, entries; eauto 10).
  destruct (out_dev w) as [| | |room|]; simpl; try discriminate.
  - intros [= <-]. exact Hdone.
  - destruct (room <? length (header ++ data ++ index_table))%nat; simpl.
    + discriminate.
    + intros [= <-]. exact Hdone.
Qed.

(** C8. The run is a function of the directory's contents alone: two runs
    on directories with the same files, in whatever order the system lists
    them and whatever the output file held before, end the same way and,
    when they succeed, leave byte-identical output files; nothing else (no
    clock, no random source) enters the computation. *)
Theorem pack_fa2_deterministic (w1 w2 : world) (d1 d2 : list (pystr * node)) :
  src_dir w1 = Some d1 -> src_dir w2 = Some d2 ->
  NoDup d1.*1 -> d1 ≡ₚ d2 ->
  out_dev w1 = out_dev w2 ->
  gather w1 = gather w2
  ∧ (pack_fa2 w1).1 = (pack_fa2 w2).1
  ∧ (succeeds (pack_fa2 w1).1 -> out_file (pack_fa2 w1).2 = out_file (pack_fa2 w2).2)
  ∧ (∀ n, (pack_fa2 w1).1 = Ok n ->
       ∃ entries image,
         entries.*1
         = merge_sort Py.str_le (filter (fun f => os_path_isfile w1 f = true) d1.*1)
         ∧ Forall (fun e => lookup_node d1 e.1 = Some (Regular e.2)) entries
         ∧ build entries = Ok image
         ∧ out_file (pack_fa2 w1).2 = Some image
         ∧ out_file (pack_fa2 w2).2 = Some image).
Proof.
  intros Hd1 Hd2 Hnodup Hperm Hdev.
  pose proof (gather_same w1 w2 d1 d2 Hd1 Hd2 Hnodup Hperm) as Hg.
  assert (Hsame : (pack_fa2 w1).1 = (pack_fa2 w2).1
    ∧ (succeeds (pack_fa2 w1).1 -> out_file (pack_fa2 w1).2 = out_file (pack_fa2 w2).2)).
  { destruct (gather w2) as [[n [[header data] index_table]]|e] eqn:Hg2.
    - rewrite (pack_fa2_gather_Ok w1 _ _ _ _ Hg), (pack_fa2_gather_Ok w2 _ _ _ _ Hg2), Hdev.
      destruct (out_dev w2) as [| | |room|]; simpl; try by split.
      destruct (room <? length (header ++ data ++ index_table))%nat; simpl; by split.
    - rewrite (pack_fa2_gather_Raise w1 e Hg), (pack_fa2_gather_Raise w2 e Hg2).
      by split. }
  destruct Hsame as [Hres Hout].
  split; [exact Hg|]. split; [exact Hres|]. split; [exact Hout|].
  intros n Hn.
  destruct (pack_fa2_Ok w1 n Hn)
    as (dir & entries & image & Hdir & Hnames & Hall & _ & Hbuild & Hfile).
  rewrite Hd1 in Hdir. injection Hdir as <-.
  exists entries, image. split; [exact Hnames|]. split; [|split; [exact Hbuild|]].
  - eapply Forall_impl; [exact Hall|]. intros e He. simpl in He.
    unfold read_file in He. rewrite Hd1 in He.
    destruct (lookup_node d1 e.1) as [[data| |]|]; try discriminate.
    by injection He as ->.
  - split; [exact Hfile|]. rewrite <- Hout; [exact Hfile|].
    rewrite Hn. exact I.
Qed.

Lemma pack_fa2_deterministic_sample :
  gather Sample.healthy = gather Sample.healthy_relisted
  ∧ (pack_fa2 Sample.healthy).1 = (pack_fa2 Sample.healthy_relisted).1
  ∧ (succeeds (pack_fa2 Sample.healthy).1 ->
     out_file (pack_fa2 Sample.healthy).2 = out_file (pack_fa2 Sample.healthy_relisted).2)
  ∧ (∀ n, (pack_fa2 Sample.healthy).1 = Ok n ->
       ∃ entries image,
         entries.*1
         = merge_sort Py.str_le
             (filter (fun f => os_path_isfile Sample.healthy f = true) Sample.dir.*1)
         ∧ Forall (fun e => lookup_node Sample.dir e.1 = Some (Regular e.2)) entries
         ∧ build entries = Ok image
         ∧ out_file (pack_fa2 Sample.healthy).2 = Some image
         ∧ out_file (pack_fa2 Sample.healthy_relisted).2 = Some image).
Proof.
  apply (pack_fa2_deterministic Sample.healthy Sample.healthy_relisted
           Sample.dir (rev Sample.dir)).
  - reflexivity.
  - reflexivity.
  - apply (bool_decide_unpack _). vm_compute. exact I.
  - apply Permutation_rev.
  - reflexivity.
Defined.

(** The two sample runs: three names listed in opposite orders, one of them
    a subdirectory; both write the 128-byte image of the worked example. *)
Example sample_runs :
  pack_fa2 Sample.healthy = (Ok 2, set_out_file Sample.healthy Sample.image)
  ∧ pack_fa2 Sample.healthy_relisted
    = (Ok 2, set_out_file Sample.healthy_relisted Sample.image).
Proof. split; vm_compute; reflexivity. Qed.

(** * Further properties of the packer *)

(** ** Which exception the build raises *)

Lemma pack_u32_Raise (v : Z) (e : exn) :
  Py.pack_u32 v = Raise e -> e = StructError ∧ ¬ (0 <= v < 2 ^ 32).
Proof.
  unfold Py.pack_u32.
  destruct (Z.leb_spec 0 v); destruct (Z.ltb_spec v (2 ^ 32)); simpl;
    intros [= <-]; split; try reflexivity; lia.
Qed.

Lemma utf8_char_Raise (c : Z) (e : exn) :
  Py.utf8_char c = Raise e -> e = UnicodeEncodeError.
Proof.
  unfold Py.utf8_char.
  repeat match goal with
         | |- context [if ?b then _ else _] => destruct b
         end; intros [= <-]; reflexivity.
Qed.

Lemma encode_utf8_Raise (s : pystr) (e : exn) :
  Py.encode_utf8 s = Raise e -> e = UnicodeEncodeError.
Proof.
  induction s as [|c s IH]; simpl; [discriminate|].
  destruct (Py.utf8_char c) as [b|e'] eqn:Hc; simpl.
  - destruct (Py.encode_utf8 s) as [bs|e'']; simpl; [discriminate|].
    intros [= <-]. by apply IH.
  - intros [= <-]. by eapply utf8_char_Raise.
Qed.

Lemma build_header_Raise (i c : Z) (e : exn) :
  build_header i c = Raise e ->
  e = StructError ∧ (¬ (0 <= i < 2 ^ 32) ∨ ¬ (0 <= c < 2 ^ 32)).
Proof.
  unfold build_header.
  rewrite (pack_u32_fits 0x00324146), (pack_u32_fits 0) by lia. cbn [mbind result_bind].
  destruct (Py.pack_u32 i) as [hi|ei] eqn:Hi; cbn [mbind result_bind].
  - destruct (Py.pack_u32 c) as [hc|ec] eqn:Hc; cbn [mbind result_bind]; [discriminate|].
    intros [= <-]. apply pack_u32_Raise in Hc as [-> Hc]. auto.
  - intros [= <-]. apply pack_u32_Raise in Hi as [-> Hi]. auto.
Qed.

Lemma index_loop_Raise (entries : list (pystr * bytes)) : ∀ off acc e,
  Forall (fun x => Py.len x.2 < 2 ^ 32) entries ->
  index_loop (layout off entries) acc = Raise e ->
  e = UnicodeEncodeError ∧ Exists (fun x => ¬ succeeds (Py.encode_utf8 x.1)) entries.
Proof.
  induction entries as [|x entries IH]; intros off acc e Hfit; simpl; [discriminate|].
  apply Forall_cons in Hfit as [Hx Hfit].
  unfold index_record at 1. simpl.
  destruct (Py.encode_utf8 x.1) as [nb|e'] eqn:Hnb; cbn [mbind result_bind].
  - rewrite pack_u32_fits by (pose proof (len_nonneg x.2); lia). cbn [mbind result_bind].
    intros H. destruct (IH _ _ _ Hfit H) as [-> Hex]. split; [reflexivity|].
    by apply Exists_cons_tl.
  - intros [= <-]. split; [by eapply encode_utf8_Raise|].
    apply Exists_cons_hd. rewrite Hnb. simpl. auto.
Qed.

(** X4. The build has three outcomes and the input decides which. It
    succeeds when every name can be encoded and the index offset and the
    entry count fit 32 bits; it raises [struct.error] when one of the two
    numbers does not fit, whatever the names (the header is packed first);
    it raises [UnicodeEncodeError] when the numbers fit and a name cannot be
    encoded. It raises nothing else. *)
Theorem build_outcome (entries : list (pystr * bytes)) :
  match build entries with
  | Ok image =>
      Forall (fun x => succeeds (Py.encode_utf8 x.1)) entries
      ∧ 16 + total_padded entries < 2 ^ 32 ∧ Py.len entries < 2 ^ 32
  | Raise StructError =>
      2 ^ 32 <= 16 + total_padded entries ∨ 2 ^ 32 <= Py.len entries
  | Raise UnicodeEncodeError =>
      16 + total_padded entries < 2 ^ 32 ∧ Py.len entries < 2 ^ 32
      ∧ Exists (fun x => ¬ succeeds (Py.encode_utf8 x.1)) entries
  | Raise _ => False
  end.
Proof.
  destruct (build entries) as [image|e] eqn:Hb.
  { apply build_succeeds_iff. rewrite Hb. exact I. }
  pose proof (total_padded_nonneg entries) as Htot. pose proof (len_nonneg entries) as Hlen.
  unfold build, assemble in Hb. rewrite store_all_eq in Hb. simpl in Hb.
  assert (Hl : Py.len (layout 16 entries) = Py.len entries)
    by (unfold Py.len; by rewrite length_layout).
  rewrite Hl in Hb.
  destruct (build_header (16 + total_padded entries) (Py.len entries)) as [h|eh] eqn:Hh;
    cbn [mbind result_bind] in Hb.
  - apply build_header_Ok in Hh as (Hi & Hc & _).
    destruct (index_loop (layout 16 entries) []) as [t|et] eqn:Ht;
      cbn [mbind result_bind] in Hb; [discriminate|].
    injection Hb as <-.
    apply index_loop_Raise in Ht as [-> Hex].
    + split; [lia|]. split; [lia|exact Hex].
    + apply Forall_forall. intros x Hx.
      pose proof (size_le_total_padded _ _ Hx). lia.
  - injection Hb as <-. apply build_header_Raise in Hh as [-> Hh]. lia.
Qed.

(** ** Header and index *)

(** X2. Every built archive starts with the signature bytes 46 41 32 00
    ("FA2" and a null byte) followed by four zero bytes of flags. *)
Theorem image_starts_with_signature (entries : list (pystr * bytes)) (image : bytes) :
  build entries = Ok image ->
  take 8 image
  = [Byte.x46; Byte.x41; Byte.x32; Byte.x00; Byte.x00; Byte.x00; Byte.x00; Byte.x00]
  ∧ field_u32 0 image = 0x00324146
  ∧ field_u32 4 image = 0.
Proof.
  intros (recs & Hi & Hc & _ & ->)%build_Ok.
  pose proof (total_padded_nonneg entries). pose proof (len_nonneg entries).
  split.
  - unfold header_bytes. rewrite <- !app_assoc. reflexivity.
  - destruct (header_bytes_fields (16 + total_padded entries) (Py.len entries)
                (data_region entries ++ concat recs)) as (Hsig & Hflags & _); [lia..|].
    auto.
Qed.

Lemma image_starts_with_signature_sample :
  take 8 Sample.image
  = [Byte.x46; Byte.x41; Byte.x32; Byte.x00; Byte.x00; Byte.x00; Byte.x00; Byte.x00]
  ∧ field_u32 0 Sample.image = 0x00324146
  ∧ field_u32 4 Sample.image = 0.
Proof.
  apply (image_starts_with_signature Sample.entries Sample.image).
  vm_compute. reflexivity.
Defined.

Lemma records_at (fes : list file_entry) (recs : list bytes) (i : nat) (fe : file_entry) :
  Forall2 (fun e r => index_record e = Ok r) fes recs ->
  fes !! i = Some fe ->
  ∃ r, index_record fe = Ok r
       ∧ concat recs = concat (take i recs) ++ r ++ concat (drop (S i) recs)
       ∧ length (concat (take i recs)) = (32 * i)%nat.
Proof.
  intros Hrecs Hfe.
  destruct (Forall2_lookup_l _ _ _ _ _ Hrecs Hfe) as (r & Hr & Hrec).
  exists r. split; [exact Hrec|]. split.
  - rewrite <- (take_drop_middle _ _ _ Hr) at 1.
    rewrite concat_app. reflexivity.
  - pose proof (length_records _ _ (Forall2_take _ _ _ i Hrecs)) as Hlen.
    unfold Py.len in Hlen. rewrite length_take in Hlen.
    apply lookup_lt_Some in Hfe. lia.
Qed.

(** Where the record of an entry lies in the image. *)
Lemma record_in_image (entries : list (pystr * bytes)) (image : bytes)
    (i : nat) (e : pystr * bytes) (name_bytes : bytes) :
  build entries = Ok image ->
  entries !! i = Some e ->
  Py.encode_utf8 e.1 = Ok name_bytes ->
  take 32 (drop (Z.to_nat (field_u32 8 image) + 32 * i) image)
  = name_field name_bytes ++ repeat Byte.x00 9
      ++ le_split 4 (Py.len e.2) ++ le_split 4 (Py.len e.2).
Proof.
  intros Hbuild He Hname.
  destruct (image_header_fields _ _ Hbuild) as [Hidx _]. rewrite Hidx.
  apply build_Ok in Hbuild as (recs & _ & _ & Hrecs & ->).
  assert (Hfe : layout 16 entries !! i
                = Some (FileEntry e.1 (Py.len e.2) (Py.len e.2)
                          (16 + total_padded (take i entries))))
    by (apply layout_lookup; eauto).
  destruct (records_at _ _ _ _ Hrecs Hfe) as (r & Hr & Hsplit & Hlen).
  pose proof (length_index_record _ _ Hr) as Hr32.
  apply index_record_Ok in Hr as (nb & Hnb & _ & _ & Hr).
  cbn [e_fname e_orig_size e_stored_size] in Hnb, Hr.
  rewrite Hname in Hnb. injection Hnb as <-.
  rewrite Hsplit, <- Hr.
  rewrite !(app_assoc (header_bytes _ _)), (app_assoc _ (concat (take i recs))).
  rewrite drop_app_length'.
  - apply take_app_length'. by symmetry.
  - rewrite !length_app, length_header_bytes, Hlen.
    pose proof (length_data_region entries) as Hd. unfold Py.len in Hd.
    pose proof (total_padded_nonneg entries). lia.
Qed.


(** X1. The index record of the [i]-th entry lies in the built archive at
    byte [indexOffset + 32 * i], indexOffset being the header field at
    offset 8: the name field, nine zero bytes, and the content length twice
    (original size and stored size are equal), each as four little-endian
    bytes. *)
Theorem index_record_at (entries : list (pystr * bytes)) (image : bytes)
    (i : nat) (e : pystr * bytes) (name_bytes : bytes) :
  build entries = Ok image ->
  entries !! i = Some e ->
  Py.encode_utf8 e.1 = Ok name_bytes ->
  take 32 (drop (Z.to_nat (field_u32 8 image) + 32 * i) image)
  = name_field name_bytes ++ repeat Byte.x00 9
      ++ le_split 4 (Py.len e.2) ++ le_split 4 (Py.len e.2).
Proof. apply record_in_image. Qed.

Lemma index_record_at_sample :
  take 32 (drop (Z.to_nat (field_u32 8 Sample.image) + 32 * 1) Sample.image)
  = name_field (byte.of_Z <$> Py.str "b.dat") ++ repeat Byte.x00 9
      ++ le_split 4 20 ++ le_split 4 20.
Proof.
  apply (index_record_at Sample.entries Sample.image 1
           (Py.str "b.dat", repeat Byte.x00 20)); vm_compute; reflexivity.
Defined.

(** ** Entries with one stored name *)

(** C6, as the code has it: two entries whose names are stored as the same
    15-byte name field do not make the build fail. Whenever every name can
    be encoded and the index offset and the entry count fit 32 bits, an
    archive is produced, and it holds the records of both entries with the
    identical name field. *)
Theorem colliding_names_accepted (entries : list (pystr * bytes))
    (i j : nat) (ei ej : pystr * bytes) (nbi nbj : bytes) :
  i ≠ j ->
  entries !! i = Some ei -> entries !! j = Some ej ->
  Py.encode_utf8 ei.1 = Ok nbi -> Py.encode_utf8 ej.1 = Ok nbj ->
  name_field nbi = name_field nbj ->
  Forall (fun x => succeeds (Py.encode_utf8 x.1)) entries ->
  16 + total_padded entries < 2 ^ 32 ->
  Py.len entries < 2 ^ 32 ->
  ∃ image,
    build entries = Ok image
    ∧ Py.len image = 16 + total_padded entries + 32 * Py.len entries
    ∧ take 15 (drop (Z.to_nat (field_u32 8 image) + 32 * i) image) = name_field nbi
    ∧ take 15 (drop (Z.to_nat (field_u32 8 image) + 32 * j) image) = name_field nbi.
Proof.
  intros _ Hi Hj Hni Hnj Hsame Hnames Hidx Hcnt.
  destruct (proj1 (succeeds_Ok (build entries))) as [image Himage].
  { apply build_succeeds_iff. auto. }
  exists image. split; [exact Himage|]. split; [by apply image_length|].
  assert (Hfield : ∀ (k : nat) (e : pystr * bytes) (nb : bytes),
             entries !! k = Some e -> Py.encode_utf8 e.1 = Ok nb ->
             take 15 (drop (Z.to_nat (field_u32 8 image) + 32 * k) image) = name_field nb).
  { intros k e nb He Hnb.
    pose proof (record_in_image entries image k e nb Himage He Hnb) as Hrec.
    replace (take 15 (drop (Z.to_nat (field_u32 8 image) + 32 * k) image))
      with (take 15 (take 32 (drop (Z.to_nat (field_u32 8 image) + 32 * k) image)))
      by (by rewrite take_take).
    rewrite Hrec.
    apply take_app_length'. symmetry. apply length_name_field. }
  split; [by eapply Hfield|]. rewrite Hsame. by eapply Hfield.
Qed.

Lemma colliding_names_accepted_sample :
  ∃ image,
    build Sample.collider_entries = Ok image
    ∧ Py.len image
      = 16 + total_padded Sample.collider_entries + 32 * Py.len Sample.collider_entries
    ∧ take 15 (drop (Z.to_nat (field_u32 8 image) + 32 * 0) image)
      = name_field (byte.of_Z <$> Sample.long_x)
    ∧ take 15 (drop (Z.to_nat (field_u32 8 image) + 32 * 1) image)
      = name_field (byte.of_Z <$> Sample.long_x).
Proof.
  apply (colliding_names_accepted Sample.collider_entries 0 1
           (Sample.long_x, [Byte.x01]) (Sample.long_y, [Byte.x02])
           (byte.of_Z <$> Sample.long_x) (byte.of_Z <$> Sample.long_y)).
  - lia.
  - reflexivity.
  - reflexivity.
  - vm_compute. reflexivity.
  - vm_compute. reflexivity.
  - vm_compute. reflexivity.
  - repeat (constructor; [vm_compute; exact I|]). constructor.
  - vm_compute. reflexivity.
  - vm_compute. reflexivity.
Defined.

(** A directory holding two files whose distinct names agree on the first
    fourteen bytes: the run succeeds with a count of two, and the two index
    records of the archive it writes carry the same name field,
    "aaaaaaaaaaaaaa" and a null byte. *)
Lemma colliding_names_are_packed :
  Sample.long_x ≠ Sample.long_y
  ∧ NoDup Sample.colliders_dir.*1
  ∧ pack_fa2 Sample.colliders
    = (Ok 2, set_out_file Sample.colliders Sample.colliders_image)
  ∧ build Sample.collider_entries = Ok Sample.colliders_image
  ∧ field_u32 12 Sample.colliders_image = 2
  ∧ take 15 (drop (Z.to_nat (field_u32 8 Sample.colliders_image)) Sample.colliders_image)
    = (byte.of_Z <$> Py.str "aaaaaaaaaaaaaa") ++ [Byte.x00]
  ∧ take 15 (drop (Z.to_nat (field_u32 8 Sample.colliders_image) + 32)
               Sample.colliders_image)
    = (byte.of_Z <$> Py.str "aaaaaaaaaaaaaa") ++ [Byte.x00].
Proof.
  split; [vm_compute; discriminate|].
  split; [apply (bool_decide_unpack _); vm_compute; exact I|].
  repeat split; vm_compute; reflexivity.
Qed.

(** ** Data region *)

(** X3. Between the end of an entry's content and the next multiple of 16
    the built archive holds zero bytes only, fewer than 16 of them. *)
Theorem padding_is_zero (entries : list (pystr * bytes)) (image : bytes)
    (i : nat) (e : pystr * bytes) (fe : file_entry) :
  build entries = Ok image ->
  entries !! i = Some e ->
  file_entries (store_all entries init_state) !! i = Some fe ->
  0 <= align16 (Py.len e.2) - Py.len e.2 < 16
  ∧ take (Z.to_nat (align16 (Py.len e.2) - Py.len e.2))
      (drop (Z.to_nat (e_offset fe + Py.len e.2)) image)
    = repeat Byte.x00 (Z.to_nat (align16 (Py.len e.2) - Py.len e.2)).
Proof.
  intros Hbuild He Hfe.
  rewrite file_entries_layout in Hfe.
  apply layout_lookup in Hfe as (e' & He' & ->). rewrite He in He'. injection He' as <-.
  simpl. pose proof (align16_bounds (Py.len e.2)) as Hb. split; [lia|].
  apply build_Ok in Hbuild as (recs & _ & _ & _ & ->).
  rewrite (data_region_split _ _ _ He). unfold padded.
  rewrite <- !app_assoc.
  rewrite (app_assoc (data_region (take i entries))), (app_assoc (header_bytes _ _)).
  rewrite drop_app_length'.
  - apply take_app_length'. by rewrite repeat_length.
  - rewrite !length_app, length_header_bytes.
    pose proof (length_data_region (take i entries)) as Hd. unfold Py.len in Hd.
    pose proof (total_padded_nonneg (take i entries)). unfold Py.len. lia.
Qed.

Lemma padding_is_zero_sample :
  0 <= align16 (Py.len (repeat Byte.x00 20)) - Py.len (repeat Byte.x00 20) < 16
  ∧ take (Z.to_nat (align16 (Py.len (repeat Byte.x00 20)) - Py.len (repeat Byte.x00 20)))
      (drop (Z.to_nat (32 + Py.len (repeat Byte.x00 20))) Sample.image)
    = repeat Byte.x00
        (Z.to_nat (align16 (Py.len (repeat Byte.x00 20)) - Py.len (repeat Byte.x00 20))).
Proof.
  apply (padding_is_zero Sample.entries Sample.image 1
           (Py.str "b.dat", repeat Byte.x00 20)
           (FileEntry (Py.str "b.dat") 20 20 32)); vm_compute; reflexivity.
Defined.

Lemma total_padded_take_le entries (i j : nat) :
  (i <= j)%nat -> total_padded (take i entries) <= total_padded (take j entries).
Proof.
  intros Hij.
  rewrite <- (take_drop i (take j entries)), take_take, total_padded_app.
  replace (i `min` j)%nat with i by lia.
  pose proof (total_padded_nonneg (drop i (take j entries))). lia.
Qed.

(** X6. The contents of two entries never overlap in the data region and
    none reaches into the header or the index: an entry's data starts at or
    after byte 16, ends at or before the start of every later entry's data,
    and ends at or before the index offset. *)
Theorem data_regions_disjoint (entries : list (pystr * bytes))
    (i j : nat) (a b : file_entry) :
  (i < j)%nat ->
  file_entries (store_all entries init_state) !! i = Some a ->
  file_entries (store_all entries init_state) !! j = Some b ->
  16 <= e_offset a
  ∧ e_offset a + e_orig_size a <= e_offset b
  ∧ e_offset b + e_orig_size b <= data_offset (store_all entries init_state).
Proof.
  intros Hij Ha Hb. rewrite file_entries_layout in Ha, Hb.
  apply layout_lookup in Ha as (ea & Hea & ->), Hb as (eb & Heb & ->).
  rewrite store_all_eq. simpl.
  pose proof (total_padded_nonneg (take i entries)).
  pose proof (total_padded_take_S _ _ _ Hea) as HSi.
  pose proof (total_padded_take_S _ _ _ Heb) as HSj.
  pose proof (total_padded_take_le entries (S i) j ltac:(lia)).
  pose proof (total_padded_take_le entries (S j) (length entries)
                ltac:(apply lookup_lt_Some in Heb; lia)) as Hend.
  rewrite firstn_all in Hend.
  pose proof (align16_bounds (Py.len ea.2)). pose proof (align16_bounds (Py.len eb.2)).
  lia.
Qed.

Lemma data_regions_disjoint_sample :
  16 <= e_offset (FileEntry (Py.str "a.txt") 2 2 16)
  ∧ e_offset (FileEntry (Py.str "a.txt") 2 2 16)
    + e_orig_size (FileEntry (Py.str "a.txt") 2 2 16)
    <= e_offset (FileEntry (Py.str "b.dat") 20 20 32)
  ∧ e_offset (FileEntry (Py.str "b.dat") 20 20 32)
    + e_orig_size (FileEntry (Py.str "b.dat") 20 20 32)
    <= data_offset (store_all Sample.entries init_state).
Proof.
  apply (data_regions_disjoint Sample.entries 0 1); [lia|vm_compute; reflexivity..].
Defined.

(** ** Rounding *)

(** X9. [align16 n] is the least multiple of 16 that is at least [n], for
    every integer [n], negative ones included: it is a multiple of 16, it is
    at least [n], and every multiple of 16 that is at least [n] is at least
    [align16 n]; hence it is monotone and applying it twice changes
    nothing. *)
Theorem align16_least_multiple (n : Z) :
  align16 n mod 16 = 0
  ∧ n <= align16 n
  ∧ (∀ m, m mod 16 = 0 -> n <= m -> align16 n <= m)
  ∧ (∀ m, n <= m -> align16 n <= align16 m)
  ∧ align16 (align16 n) = align16 n.
Proof.
  split; [apply align16_mod|]. split; [apply align16_bounds|].
  split; [|split].
  - intros m Hm Hnm. rewrite align16_div. arith.
  - intros m Hnm. rewrite !align16_div. arith.
  - apply align16_multiple, align16_mod.
Qed.

(** ** Names in the index *)

Lemma name_field_take (name_bytes : bytes) :
  name_field name_bytes
  = take 14 name_bytes ++ Byte.x00 :: repeat Byte.x00 (14 - length (take 14 name_bytes)).
Proof.
  destruct (decide (15 <= length name_bytes)%nat) as [Hlong|Hshort].
  - rewrite name_field_long by exact Hlong.
    rewrite length_take. by replace (14 - 14 `min` length name_bytes)%nat with 0%nat by lia.
  - rewrite name_field_short by lia.
    rewrite take_ge by lia. reflexivity.
Qed.

(** X7. Two encoded names without null bytes get the same 15-byte name
    field exactly when their first 14 bytes agree: the index tells two
    entries apart by name if and only if the names differ within their first
    14 bytes. *)
Theorem name_fields_collide_iff (nb1 nb2 : bytes) :
  Byte.x00 ∉ nb1 -> Byte.x00 ∉ nb2 ->
  name_field nb1 = name_field nb2 ↔ take 14 nb1 = take 14 nb2.
Proof.
  intros H1 H2. rewrite !name_field_take. split.
  - intros Heq.
    assert (Hc : ∀ nb : bytes, Byte.x00 ∉ nb ->
              Reader.c_string
                (take 14 nb ++ Byte.x00 :: repeat Byte.x00 (14 - length (take 14 nb)))
              = take 14 nb).
    { intros nb Hnb. apply c_string_terminated.
      intros Hin. apply Hnb. eapply elem_of_sublist; [exact Hin|apply sublist_take]. }
    rewrite <- (Hc nb1 H1), <- (Hc nb2 H2), Heq. reflexivity.
  - intros Heq. rewrite Heq. reflexivity.
Qed.

Lemma name_fields_collide_iff_sample :
  name_field (byte.of_Z <$> Sample.long_x) = name_field (byte.of_Z <$> Sample.long_y)
  ↔ take 14 (byte.of_Z <$> Sample.long_x) = take 14 (byte.of_Z <$> Sample.long_y).
Proof.
  apply (name_fields_collide_iff (byte.of_Z <$> Sample.long_x) (byte.of_Z <$> Sample.long_y));
    apply (bool_decide_unpack _); vm_compute; exact I.
Defined.

(** ** Which files are packed, and when the run stops *)

Lemma lookup_node_None (dir : list (pystr * node)) (f : pystr) :
  f ∉ dir.*1 -> lookup_node dir f = None.
Proof.
  induction dir as [|[g x] dir IH]; simpl; [done|].
  intros Hnot. apply not_elem_of_cons in Hnot as [Hne Hnot].
  destruct (decide (g = f)) as [->|_]; [done|]. by apply IH.
Qed.

Lemma lookup_node_elem (dir : list (pystr * node)) (f : pystr) (x : node) :
  NoDup dir.*1 -> (f, x) ∈ dir -> lookup_node dir f = Some x.
Proof.
  induction dir as [|[g y] dir IH]; simpl; intros Hnd Hin.
  - by apply elem_of_nil in Hin.
  - apply NoDup_cons in Hnd as [Hg Hnd].
    apply elem_of_cons in Hin as [[= <- <-]|Hin].
    + destruct (decide (f = f)); done.
    + destruct (decide (g = f)) as [->|_]; [|by apply IH].
      exfalso. apply Hg. by apply (list_elem_of_fmap_2 fst _ (f, x)).
Qed.

Lemma read_file_Raise (w : world) (f : pystr) (e : exn) :
  read_file w f = Raise e -> e = OSError.
Proof.
  unfold read_file. destruct (src_dir w) as [dir|]; [|by intros [= <-]].
  destruct (lookup_node dir f) as [[data| |]|]; intros [= <-]; reflexivity.
Qed.


Lemma read_loop_stops (w : world) (files : list pystr) (f : pystr) : ∀ st,
  f ∈ files -> read_file w f = Raise OSError -> read_loop w files st = Raise OSError.
Proof.
  induction files as [|g files IH]; intros st Hin Hf; [by apply elem_of_nil in Hin|].
  simpl. destruct (read_file w g) as [data|e] eqn:Hg; simpl.
  - apply IH; [|exact Hf].
    apply elem_of_cons in Hin as [->|Hin]; [congruence|exact Hin].
  - f_equal. by eapply read_file_Raise.
Qed.

(** X5. One regular file of the directory that cannot be read makes the
    whole run fail with [OSError], whatever the other files hold and
    whatever the state of the output: nothing is written, the file system is
    left as it was. *)
Theorem unreadable_file_aborts (w : world) (dir : list (pystr * node)) (f : pystr) :
  src_dir w = Some dir -> NoDup dir.*1 -> (f, Unreadable) ∈ dir ->
  pack_fa2 w = (Raise OSError, w).
Proof.
  intros Hdir Hnd Hin.
  pose proof (lookup_node_elem _ _ _ Hnd Hin) as Hlook.
  assert (Hread : read_file w f = Raise OSError)
    by (unfold read_file; by rewrite Hdir, Hlook).
  assert (Hfile : os_path_isfile w f = true)
    by (unfold os_path_isfile; by rewrite Hdir, Hlook).
  assert (Hg : gather w = Raise OSError).
  { unfold gather, os_listdir. rewrite Hdir. cbn [mbind result_bind].
    rewrite (read_loop_stops w _ f); [reflexivity| |exact Hread].
    rewrite merge_sort_Permutation. apply list_elem_of_filter. split; [exact Hfile|].
    by apply (list_elem_of_fmap_2 fst _ (f, Unreadable)). }
  unfold pack_fa2. rewrite Hg. reflexivity.
Qed.

Lemma unreadable_file_aborts_sample :
  pack_fa2 Sample.locked = (Raise OSError, Sample.locked).
Proof.
  apply (unreadable_file_aborts Sample.locked Sample.locked_dir (Py.str "k.bin")).
  - reflexivity.
  - apply (bool_decide_unpack _). vm_compute. exact I.
  - apply elem_of_cons. right. apply elem_of_cons. left. reflexivity.
Defined.






(** The worked example with an output path whose parent directory is
    missing: the exception escapes [main], and nothing is written. *)
Example missing_parent_escapes :
  main 3 Sample.no_parent = (Uncaught FileNotFoundError, Sample.no_parent).
Proof. vm_compute. reflexivity. Qed.

(** X10. A successful run packs every regular file of the directory and
    nothing else, in ascending order of name: the count it reports is the
    number of regular files, every one of them was read, and the output
    file holds the image of these entries, whose entryCount field is the
    reported count and whose length is indexOffset + 32 * entryCount. *)
Theorem successful_run_archive (w : world) (n : Z) :
  (pack_fa2 w).1 = Ok n ->
  ∃ dir entries image,
    src_dir w = Some dir
    ∧ entries.*1 ≡ₚ filter (fun f => os_path_isfile w f = true) dir.*1
    ∧ Sorted Py.str_le entries.*1
    ∧ n = Py.len (filter (fun f => os_path_isfile w f = true) dir.*1)
    ∧ Forall (fun e => read_file w e.1 = Ok e.2) entries
    ∧ build entries = Ok image
    ∧ out_file (pack_fa2 w).2 = Some image
    ∧ field_u32 12 image = n
    ∧ Py.len image = field_u32 8 image + 32 * n.
Proof.
  intros Hn.
  destruct (pack_fa2_Ok w n Hn)
    as (dir & entries & image & Hdir & Hnames & Hall & -> & Hbuild & Hfile).
  exists dir, entries, image.
  destruct (image_header_fields _ _ Hbuild) as [Hidx Hcnt].
  split; [exact Hdir|]. split; [rewrite Hnames; apply merge_sort_Permutation|].
  split; [rewrite Hnames; apply Sorted_merge_sort, _|].
  split.
  - unfold Py.len. f_equal.
    rewrite <- (length_fmap fst entries), Hnames.
    apply Permutation_length, merge_sort_Permutation.
  - split; [exact Hall|]. split; [exact Hbuild|]. split; [exact Hfile|].
    split; [exact Hcnt|].
    rewrite Hidx, (image_length _ _ Hbuild). lia.
Qed.

Lemma successful_run_archive_sample :
  ∃ dir entries image,
    src_dir Sample.healthy = Some dir
    ∧ entries.*1 ≡ₚ filter (fun f => os_path_isfile Sample.healthy f = true) dir.*1
    ∧ Sorted Py.str_le entries.*1
    ∧ 2 = Py.len (filter (fun f => os_path_isfile Sample.healthy f = true) dir.*1)
    ∧ Forall (fun e => read_file Sample.healthy e.1 = Ok e.2) entries
    ∧ build entries = Ok image
    ∧ out_file (pack_fa2 Sample.healthy).2 = Some image
    ∧ field_u32 12 image = 2
    ∧ Py.len image = field_u32 8 image + 32 * 2.
Proof. apply (successful_run_archive Sample.healthy 2). vm_compute. reflexivity. Defined.

(** ** What is not a regular file *)

Lemma lookup_node_files_only (dir : list (pystr * node)) (f : pystr) :
  NoDup dir.*1 ->
  lookup_node (filter (fun p => is_file p.2 = true) dir) f
  = match lookup_node dir f with
    | Some x => if is_file x then Some x else None
    | None => None
    end.
Proof.
  induction dir as [|[g y] dir IH]; intros Hnd; [reflexivity|].
  simpl in Hnd. apply NoDup_cons in Hnd as [Hg Hnd].
  rewrite filter_cons. simpl.
  destruct (decide (is_file y = true)) as [Hy|Hy]; simpl.
  - destruct (decide (g = f)) as [->|_]; [by rewrite Hy|by apply IH].
  - destruct (decide (g = f)) as [->|_]; [|by apply IH].
    rewrite IH, (lookup_node_None dir f) by done.
    by destruct (is_file y).
Qed.

Lemma read_loop_ext (w1 w2 : world) (files : list pystr) : ∀ st,
  (∀ f, read_file w1 f = read_file w2 f) ->
  read_loop w1 files st = read_loop w2 files st.
Proof.
  induction files as [|f files IH]; intros st Hext; simpl; [reflexivity|].
  rewrite Hext. destruct (read_file w2 f); simpl; [by apply IH|reflexivity].
Qed.

Lemma listing_files (w : world) (l : list (pystr * node)) :
  (∀ p, p ∈ l -> os_path_isfile w p.1 = is_file p.2) ->
  filter (fun f => os_path_isfile w f = true) l.*1
  = (filter (fun p => is_file p.2 = true) l).*1.
Proof.
  induction l as [|p l IH]; intros Hl; [reflexivity|].
  rewrite fmap_cons, !filter_cons, (Hl p) by left.
  rewrite IH by (intros q Hq; apply Hl; by right).
  by destruct (decide (is_file p.2 = true)).
Qed.

Lemma isfile_elem (w : world) (dir : list (pystr * node)) (p : pystr * node) :
  src_dir w = Some dir -> NoDup dir.*1 -> p ∈ dir -> os_path_isfile w p.1 = is_file p.2.
Proof.
  intros Hdir Hnd Hp. unfold os_path_isfile. rewrite Hdir.
  destruct p as [f x]. simpl. rewrite (lookup_node_elem _ _ _ Hnd Hp). by destruct x.
Qed.

(** X11. Names of the directory that are not regular files (subdirectories
    and the like) have no effect: the run ends the same way and writes the
    same output as on the directory with those names removed. *)
Theorem non_files_ignored (w : world) (dir : list (pystr * node)) :
  src_dir w = Some dir -> NoDup dir.*1 ->
  gather (files_only w) = gather w
  ∧ (pack_fa2 (files_only w)).1 = (pack_fa2 w).1
  ∧ out_file (pack_fa2 (files_only w)).2 = out_file (pack_fa2 w).2.
Proof.
  intros Hdir Hnd.
  set (dir' := filter (fun p => is_file p.2 = true) dir).
  assert (Hdir' : src_dir (files_only w) = Some dir')
    by (unfold files_only; simpl; by rewrite Hdir).
  assert (Hnd' : NoDup dir'.*1).
  { eapply sublist_NoDup; [exact Hnd|]. apply fmap_sublist, sublist_filter. }
  assert (Hlook : ∀ f, lookup_node dir' f
                       = match lookup_node dir f with
                         | Some x => if is_file x then Some x else None
                         | None => None
                         end)
    by (intros f; by apply lookup_node_files_only).
  assert (Hread : ∀ f, read_file (files_only w) f = read_file w f).
  { intros f. unfold read_file. rewrite Hdir', Hdir, Hlook.
    by destruct (lookup_node dir f) as [[data| |]|]. }
  assert (Hlist : filter (fun f => os_path_isfile (files_only w) f = true) dir'.*1
                  = filter (fun f => os_path_isfile w f = true) dir.*1).
  { rewrite (listing_files w dir) by (intros p; by apply isfile_elem).
    rewrite (listing_files (files_only w) dir') by (intros p; by apply isfile_elem).
    fold dir'. f_equal. unfold dir'. rewrite list_filter_filter.
    apply list_filter_iff. tauto. }
  assert (Hg : gather (files_only w) = gather w).
  { unfold gather, os_listdir. rewrite Hdir', Hdir. cbn [mbind result_bind].
    rewrite Hlist. by rewrite (read_loop_ext (files_only w) w). }
  split; [exact Hg|].
  destruct (gather w) as [[n [[header data] index_table]]|e] eqn:Hgw.
  - rewrite (pack_fa2_gather_Ok (files_only w) _ _ _ _ Hg), (pack_fa2_gather_Ok w _ _ _ _ Hgw).
    change (out_dev (files_only w)) with (out_dev w).
    destruct (out_dev w) as [| | |room|]; simpl; try by split.
    destruct (room <? length (header ++ data ++ index_table))%nat; simpl; by split.
  - rewrite (pack_fa2_gather_Raise (files_only w) e Hg), (pack_fa2_gather_Raise w e Hgw).
    by split.
Qed.

Lemma non_files_ignored_sample :
  gather (files_only Sample.healthy) = gather Sample.healthy
  ∧ (pack_fa2 (files_only Sample.healthy)).1 = (pack_fa2 Sample.healthy).1
  ∧ out_file (pack_fa2 (files_only Sample.healthy)).2
    = out_file (pack_fa2 Sample.healthy).2.
Proof.
  apply (non_files_ignored Sample.healthy Sample.dir).
  - reflexivity.
  - apply (bool_decide_unpack _). vm_compute. exact I.
Defined.

Example sample_files_only :
  src_dir (files_only Sample.healthy)
  = Some [(Py.str "b.dat", Regular (repeat Byte.x00 20));
          (Py.str "a.txt", Regular [byte.of_Z 104; byte.of_Z 105])].
Proof. vm_compute. reflexivity. Qed.

(** ** Invariant of the first loop *)

(** X12. The body of the first loop keeps the running offset in step with
    the data gathered so far: if [data_offset] is 16 plus the length of
    [file_data] and a multiple of 16 before a file is stored, it is so
    afterwards, and one entry has been appended to [file_entries]. This is
    why the index table, written right after the data, starts at
    [data_offset]. *)
Theorem store_file_invariant (st : pack_state) (fname : pystr) (data : bytes) :
  data_offset st = 16 + Py.len (file_data st) ->
  data_offset st mod 16 = 0 ->
  data_offset (store_file st fname data) = 16 + Py.len (file_data (store_file st fname data))
  ∧ data_offset (store_file st fname data) mod 16 = 0
  ∧ Py.len (file_entries (store_file st fname data)) = Py.len (file_entries st) + 1
  ∧ Py.len (file_data (store_file st fname data)) - Py.len (file_data st)
    = align16 (Py.len data).
Proof.
  intros Hoff Hmod. rewrite store_file_eq. simpl.
  rewrite !len_app, length_padded.
  split; [lia|]. split; [|split].
  - rewrite Z.add_mod, Hmod, align16_mod by lia. reflexivity.
  - unfold Py.len. simpl. lia.
  - lia.
Qed.

Lemma store_file_invariant_sample :
  data_offset (store_file init_state (Py.str "a.txt") [Byte.x01])
  = 16 + Py.len (file_data (store_file init_state (Py.str "a.txt") [Byte.x01]))
  ∧ data_offset (store_file init_state (Py.str "a.txt") [Byte.x01]) mod 16 = 0
  ∧ Py.len (file_entries (store_file init_state (Py.str "a.txt") [Byte.x01]))
    = Py.len (file_entries init_state) + 1
  ∧ Py.len (file_data (store_file init_state (Py.str "a.txt") [Byte.x01]))
    - Py.len (file_data init_state)
    = align16 (Py.len [Byte.x01]).
Proof.
  apply (store_file_invariant init_state (Py.str "a.txt") [Byte.x01]); reflexivity.
Defined.
